(** * ComfyUI-SAM2-Realtime: the two nodes of [nodes.py]

    A shallow embedding of [DownloadAndLoadSAM2RealtimeModel.loadmodel] and of
    [Sam2RealtimeSegmentation] ([__init__], [_process_mask], [segment_images]
    with its inner [process_frame]).

    What the repository does not own is taken as an interface:
    - the floating-point arithmetic of torch and numpy ([FloatOps]);
    - the Python built-ins [ast.literal_eval] and [int] on text ([PyRuntime]);
    - the tensor and image routines of torch and OpenCV whose pixel values
      are library matters ([TensorLib]);
    - the segmentation network itself ([Model]);
    - CUDA, HTTP, Hydra and the checkpoint reader of the loader ([Host]).
    Tensors are nested lists, outermost dimension first. *)

From Stdlib Require Import ZArith QArith Qround String Ascii Bool Arith Lia List.
Import ListNotations.
Local Open Scope nat_scope.
Local Open Scope list_scope.

Set Implicit Arguments.

(** ** Exceptions and outcomes *)

Inductive exn : Type :=
| ValueError | TypeError | IndexError | KeyError | AttributeError
| UnboundLocalError | RuntimeError | SyntaxError | OverflowError
| CvError | HTTPError | OSError
| ModelError (code : nat).

Inductive result (A : Type) : Type :=
| Ok (a : A)
| Raise (e : exn).
Arguments Ok {A} a.
Arguments Raise {A} e.

Definition succeeded {A} (r : result A) : bool :=
  match r with Ok _ => true | Raise _ => false end.

Definition rbind {A B} (r : result A) (k : A -> result B) : result B :=
  match r with Ok a => k a | Raise e => Raise e end.

Fixpoint rmap {A B} (f : A -> result B) (l : list A) : result (list B) :=
  match l with
  | [] => Ok []
  | x :: xs =>
      rbind (f x) (fun y => rbind (rmap f xs) (fun ys => Ok (y :: ys)))
  end.

(** A computation over a mutable store [S] that logs the calls it makes
    ([E]) and may raise.  What was mutated and what was logged before an
    exception stays: Python does not roll back. *)

Record outcome (S E A : Type) : Type := Outcome {
  post : S;
  emitted : list E;
  value : result A
}.
Arguments Outcome {S E A} post emitted value.

Definition prog (S E A : Type) : Type := S -> outcome S E A.

Definition ret {S E A} (a : A) : prog S E A :=
  fun s => Outcome s [] (Ok a).

Definition raise {S E A} (e : exn) : prog S E A :=
  fun s => Outcome s [] (Raise e).

Definition lift {S E A} (r : result A) : prog S E A :=
  fun s => Outcome s [] r.

Definition bind {S E A B} (m : prog S E A) (k : A -> prog S E B) : prog S E B :=
  fun s =>
    match m s with
    | Outcome s1 calls1 (Ok a) =>
        match k a s1 with
        | Outcome s2 calls2 v => Outcome s2 (calls1 ++ calls2) v
        end
    | Outcome s1 calls1 (Raise e) => Outcome s1 calls1 (Raise e)
    end.

Definition emit {S E} (e : E) : prog S E unit :=
  fun s => Outcome s [e] (Ok tt).

Definition get {S E} : prog S E S :=
  fun s => Outcome s [] (Ok s).

Definition modify {S E} (f : S -> S) : prog S E unit :=
  fun s => Outcome (f s) [] (Ok tt).

Declare Scope prog_scope.
Delimit Scope prog_scope with prog.
Notation "x <- m ;; k" := (bind m (fun x => k))
  (at level 61, m at next level, right associativity) : prog_scope.
Notation "m ;;; k" := (bind m (fun _ => k))
  (at level 61, right associativity) : prog_scope.

(** ** Small list utilities shared by both nodes *)

Definition build {A} (h w : nat) (f : nat -> nat -> A) : list (list A) :=
  map (fun y => map (fun x => f y x) (seq 0 w)) (seq 0 h).

Definition shape2 {A} (m : list (list A)) : nat * nat :=
  (length m, length (hd [] m)).

Definition shape_eqb (a b : nat * nat) : bool :=
  (fst a =? fst b) && (snd a =? snd b).

Fixpoint zip_with {A B C} (f : A -> B -> C) (l : list A) (r : list B) : list C :=
  match l, r with
  | a :: l', b :: r' => f a b :: zip_with f l' r'
  | _, _ => []
  end.

(** Characters of a Python [str], each as a one-character string. *)
Fixpoint chars (s : string) : list string :=
  match s with
  | EmptyString => []
  | String c rest => String c EmptyString :: chars rest
  end.

(** ** Interfaces to what the repository calls but does not own *)

(** Floating-point numbers of torch and numpy.  No rounding behaviour is
    assumed; the two laws below are the only facts used, and only where a
    theorem lists them. *)
Class FloatOps (F : Type) : Type := {
  fadd : F -> F -> F;
  fsub : F -> F -> F;
  fmul : F -> F -> F;
  fdiv : F -> F -> F;
  fgt : F -> F -> bool;          (* x > y *)
  of_Z : Z -> F;                 (* an integer, or a uint8 entry, as a float *)
  flit : Z -> Z -> F;            (* the decimal literal n/d, as in 0.7 = 7/10 *)
  to_byte : F -> Z;              (* .byte() and .astype("uint8") *)
  ftrunc : F -> result Z         (* int(x) on a Python float *)
}.

Class FloatLaws (F : Type) `{FloatOps F} : Prop := {
  to_byte_of_Z : forall b : Z, (0 <= b < 256)%Z -> to_byte (of_Z b) = b;
  to_byte_range : forall x : F, (0 <= to_byte x < 256)%Z
}.
Arguments FloatLaws F {_}.

(** Values that [ast.literal_eval] can return.  [PySet] lists its members
    in iteration order; [PyOther] stands for complex numbers and Ellipsis. *)
#[warnings="-register-all"]
Inductive pyval (F : Type) : Type :=
| PyNone
| PyBool (b : bool)
| PyInt (z : Z)
| PyFloat (x : F)
| PyStr (s : string)
| PyBytes (s : string)
| PyList (l : list (pyval F))
| PyTuple (l : list (pyval F))
| PySet (l : list (pyval F))
| PyDict (kv : list (pyval F * pyval F))
| PyOther.
Arguments PyNone {F}.
Arguments PyBool {F} b.
Arguments PyInt {F} z.
Arguments PyStr {F} s.
Arguments PyBytes {F} s.
Arguments PyOther {F}.

Class PyRuntime (F : Type) : Type := {
  literal_eval : string -> result (pyval F);   (* ast.literal_eval on a str *)
  int_of_text : string -> result Z             (* int(s) on str or bytes *)
}.

Definition plane (A : Type) : Type := list (list A).           (* h x w *)
Definition image (A : Type) : Type := list (list (list A)).    (* H x W x C *)
Definition logits (F : Type) : Type := list (list (plane F)).  (* N x 1 x h x w *)

(** What [mask[i, 0]] is: a 2-D array when [mask] has four dimensions, a
    0-d array when it has two. *)
Inductive subarray (A : Type) : Type :=
| Scalar (a : A)
| Plane (m : plane A).

(** A numpy image as [_process_mask] returns it: 2-D or H x W x C. *)
Inductive ndarray (A : Type) : Type :=
| Gray (m : plane A)
| Color (m : image A).

Class TensorLib (F : Type) : Type := {
  (* floor(dst * (in / out)) as torch's nearest mode computes it:
     arguments are input size, output size, destination index *)
  nearest_floor : nat -> nat -> nat -> nat;
  (* cv2.resize(src, (width, height)) *)
  cv2_resize : subarray Z -> nat -> nat -> result (plane Z);
  (* the pixels cv2.circle paints, given a centre it accepted *)
  draw_circle : ndarray Z -> Z -> Z -> Z -> Z * Z * Z -> Z -> ndarray Z;
  (* torch.add(tensor, tensor), broadcasting included *)
  torch_add : image F -> plane F -> result (image F);
  (* torch.add(tensor, numpy array) *)
  torch_add_np : image F -> ndarray F -> result (image F)
}.

(** The capability object: SAM2's camera predictor.  Each method takes the
    network's hidden state and returns the new one, also when it raises. *)
Class Model (F M : Type) : Type := {
  load_first_frame : M -> image F -> M * result unit;
  add_new_prompt :
    M -> nat -> nat -> list (list Z) -> list Z -> M * result (logits F);
  track : M -> image F -> M * result (list Z * logits F);
  to_device : M -> string -> M * result unit
}.

(** ** Python built-ins used by the nodes *)

Section Builtins.
Context {F : Type} `{FloatOps F} `{PyRuntime F}.

(** [iter(v)] run to the end. *)
Definition py_iter (v : pyval F) : result (list (pyval F)) :=
  match v with
  | PyStr s => Ok (map PyStr (chars s))
  | PyBytes s =>
      Ok (map (fun c => PyInt (Z.of_nat (nat_of_ascii c)))
              (list_ascii_of_string s))
  | PyList l | PyTuple l | PySet l => Ok l
  | PyDict kv => Ok (map fst kv)
  | _ => Raise TypeError
  end.

(** [int(v)]. *)
Definition py_int (v : pyval F) : result Z :=
  match v with
  | PyBool b => Ok (if b then 1 else 0)%Z
  | PyInt z => Ok z
  | PyFloat x => ftrunc x
  | PyStr s | PyBytes s => int_of_text s
  | _ => Raise TypeError
  end.

(** [tuple(map(int, v))] and [list(map(int, v))]. *)
Definition int_seq (v : pyval F) : result (list Z) :=
  rbind (py_iter v) (rmap py_int).

(** [ast.literal_eval(x)] where [x] may be the default [None]. *)
Definition ast_literal_eval (x : option string) : result (pyval F) :=
  match x with
  | None => Raise ValueError
  | Some s => literal_eval s
  end.
End Builtins.

(** ** [Sam2RealtimeSegmentation] *)

Section Segmentation.
Context {F M : Type}.
Context `{FloatOps F} `{PyRuntime F} `{TensorLib F} `{Model F M}.

(** Python objects are held by reference: [sam2_model["model"]] and
    [self.predictor] name network objects that live in a heap. *)
Definition ref : Type := nat.

(** The instance fields set by [__init__]. *)
Record node : Type := Node {
  predictor : option ref;
  if_init : bool
}.

Definition __init__ : node := Node None false.

Record store : Type := Store {
  self : node;
  heap : ref -> M
}.

(** The SAM2MODEL dictionary, as far as [segment_images] reads it. *)
Record sam2_dict : Type := Sam2Dict {
  sm_model : ref;
  sm_device : string
}.

Record inputs : Type := Inputs {
  sam2_model : sam2_dict;
  coordinates_positive : option string;
  point_labels : option string;
  threshold : F;
  show_point : bool
}.

(** Calls that leave the node, in the order they are made. *)
Inductive call : Type :=
| CallTo (r : ref) (device : string)
| CallLoadFirstFrame (r : ref) (frame : image F)
| CallLiteralEval (x : option string)
| CallAddNewPrompt (r : ref) (frame_idx obj_id : nat)
    (points : list (list Z)) (labels : list Z)
| CallTrack (r : ref) (frame : image F).

Definition invoke {A} (r : ref) (c : call) (method : M -> M * result A)
  : prog store call A :=
  fun s =>
    let (m', res) := method (heap s r) in
    Outcome (Store (self s) (fun r' => if r' =? r then m' else heap s r'))
            [c] res.

(** [self.predictor.<method>]: attribute access on [None] raises. *)
Definition the_predictor : prog store call ref :=
  fun s =>
    match predictor (self s) with
    | Some r => Outcome s [] (Ok r)
    | None => Outcome s [] (Raise AttributeError)
    end.

Definition set_if_init (s : store) : store :=
  Store (Node (predictor (self s)) true) (heap s).

Definition list_index {A} (l : list A) (i : nat) : result A :=
  match nth_error l i with
  | Some x => Ok x
  | None => Raise IndexError
  end.

Local Open Scope prog_scope.

(** Lines 239-246: the [for idx, point in enumerate(...)] loop.  [out] is
    the local [out_mask_logits], unbound until the first prompt returns. *)
Fixpoint seed_prompts (r : ref) (point_labels_list : list Z) (idx : nat)
    (points : list (pyval F)) (out : option (logits F))
  : prog store call (option (logits F)) :=
  match points with
  | [] => ret out
  | point :: rest =>
      point_tuple <- lift (int_seq point) ;;
      label <- lift (list_index point_labels_list idx) ;;
      out_mask_logits <-
        invoke r (CallAddNewPrompt r 0 (idx + 1) [point_tuple] [label])
          (fun m => add_new_prompt m 0 (idx + 1) [point_tuple] [label]) ;;
      seed_prompts r point_labels_list (S idx) rest (Some out_mask_logits)
  end.

(** Lines 231-248: initialise on the first frame, track afterwards. *)
Definition obtain_logits (a : inputs) (frame : image F)
  : prog store call (option (logits F)) :=
  s <- get ;;
  if negb (if_init (self s)) then
    r <- the_predictor ;;
    invoke r (CallLoadFirstFrame r frame)
      (fun m => load_first_frame m frame) ;;;
    modify set_if_init ;;;
    emit (CallLiteralEval (coordinates_positive a)) ;;;
    coordinates_positive_list <-
      lift (ast_literal_eval (coordinates_positive a)) ;;
    emit (CallLiteralEval (point_labels a)) ;;;
    point_labels_list <- lift (ast_literal_eval (point_labels a)) ;;
    point_labels_list <- lift (int_seq point_labels_list) ;;
    points <- lift (py_iter coordinates_positive_list) ;;
    seed_prompts r point_labels_list 0 points None
  else
    r <- the_predictor ;;
    tracked <- invoke r (CallTrack r frame) (fun m => track m frame) ;;
    ret (Some (snd tracked)).

(** *** The per-frame mask (lines 250-258) *)

Definition frame_shape (frame : image F) : nat * nat * nat :=
  (length frame, length (hd [] frame), length (hd [] (hd [] frame))).

(** Source index of torch's nearest mode:
    [min(floor(dst * scale), input_size - 1)]. *)
Definition nearest_index (in_size out_size dst : nat) : nat :=
  Nat.min (nearest_floor in_size out_size dst) (in_size - 1).

(** [interpolate(src[None, None], size=(fh, fw), mode='nearest')[0][0]]. *)
Definition interpolate_nearest {A} (d : A) (src : plane A) (fh fw : nat)
  : result (plane A) :=
  let (h, w) := shape2 src in
  if (h =? 0) || (w =? 0) || (fh =? 0) || (fw =? 0) then Raise RuntimeError
  else
    Ok (build fh fw (fun y x =>
          nth (nearest_index w fw x) (nth (nearest_index h fh y) src []) d)).

(** [t[0, 0]] on an N x C x h x w tensor. *)
Definition index00 (t : logits F) : result (plane F) :=
  rbind (list_index t 0) (fun t0 => list_index t0 0).

Definition torch_ones (fh fw : nat) : plane Z :=
  build fh fw (fun _ _ => 1%Z).

Definition frame_mask (thr : F) (out_mask_logits : logits F) (fh fw : nat)
  : result (plane Z) :=
  if 0 <? length out_mask_logits then
    rbind (index00 out_mask_logits) (fun l00 =>
      let mask := map (map (fun v => if fgt v thr then 1%Z else 0%Z)) l00 in
      rbind (interpolate_nearest (of_Z 0) (map (map of_Z) mask) fh fw)
        (fun m => Ok (map (map to_byte) m)))
  else Ok (torch_ones fh fw).

(** *** [_process_mask] (lines 168-199) *)

(** The argument [mask]: the annotation promises an array whose first
    dimension indexes objects (N x 1 x h x w); [process_frame] passes the
    2-D uint8 tensor it has just computed. *)
Inductive mask_tensor : Type :=
| Mask2D (m : plane Z)
| Mask4D (m : logits F).

Definition mask_len (mask : mask_tensor) : nat :=
  match mask with
  | Mask2D m => length m
  | Mask4D m => length m
  end.

(** [(mask[i, 0] > 0).cpu().numpy().astype("uint8") * 255]. *)
Definition current_mask_of (mask : mask_tensor) (i : nat)
  : result (subarray Z) :=
  match mask with
  | Mask2D m =>
      rbind (list_index m i) (fun row =>
      rbind (list_index row 0) (fun z =>
        Ok (Scalar (if (0 <? z)%Z then 255%Z else 0%Z))))
  | Mask4D m =>
      rbind (list_index m i) (fun obj =>
      rbind (list_index obj 0) (fun pl =>
        Ok (Plane (map (map (fun v =>
              if fgt v (of_Z 0) then 255%Z else 0%Z)) pl))))
  end.

Definition colors : list (list Z) :=
  [ [255; 0; 255]; [0; 255; 255]; [255; 255; 0]; [0; 255; 0]; [255; 0; 0] ]%Z.

(** Lines 185-186: resize unless the shape is already the frame's. *)
Definition fit_to_frame (current_mask : subarray Z) (fh fw : nat)
  : result (plane Z) :=
  match current_mask with
  | Scalar _ => cv2_resize current_mask fw fh
  | Plane m =>
      if shape_eqb (shape2 m) (fh, fw) then Ok m
      else cv2_resize current_mask fw fh
  end.

(** The BGRA pixel of object [i] where its mask value is [v]. *)
Definition colored_pixel (i : nat) (v : Z) : list Z :=
  if (0 <? v)%Z then nth (i mod length colors) colors [] ++ [128%Z]
  else [0; 0; 0; 0]%Z.

(** Lines 189-191; a boolean index of another shape is an IndexError. *)
Definition colored_mask_of (i : nat) (current_mask : plane Z) (fh fw : nat)
  : result (image Z) :=
  if shape_eqb (shape2 current_mask) (fh, fw) then
    Ok (build fh fw (fun y x =>
          colored_pixel i (nth x (nth y current_mask []) 0%Z)))
  else Raise IndexError.

(** Lines 194-195 at one pixel. *)
Definition blend_pixel (combined : list F) (colored : list Z) : list F :=
  let alpha := fdiv (of_Z (nth 3 colored 0%Z)) (of_Z 255) in
  zip_with (fun c k =>
              fadd (fmul (fsub (of_Z 1) alpha) c) (fmul alpha (of_Z k)))
           combined colored.

Definition blend (combined : image F) (colored : image Z) : image F :=
  zip_with (zip_with blend_pixel) combined colored.

(** The [for i in range(mask.shape[0])] loop. *)
Fixpoint blend_objects (mask : mask_tensor) (fh fw : nat) (range : list nat)
    (combined : image F) : result (image F) :=
  match range with
  | [] => Ok combined
  | i :: rest =>
      rbind (current_mask_of mask i) (fun current_mask =>
      rbind (fit_to_frame current_mask fh fw) (fun current_mask =>
      rbind (colored_mask_of i current_mask fh fw) (fun colored_mask =>
        blend_objects mask fh fw rest (blend combined colored_mask))))
  end.

Definition to_bgr (combined : image F) : image Z :=
  map (map (fun px => map to_byte (firstn 3 px))) combined.

(** The call to [logging.warning] on the empty branch is not modelled. *)
Definition _process_mask (mask : mask_tensor) (frame_shape : nat * nat * nat)
  : result (ndarray Z) :=
  let '(fh, fw, _) := frame_shape in
  if mask_len mask =? 0 then Ok (Gray (build fh fw (fun _ _ => 0%Z)))
  else
    rbind (blend_objects mask fh fw (seq 0 (mask_len mask))
             (build fh fw (fun _ _ => repeat (of_Z 0) 4)))
      (fun combined => Ok (Color (to_bgr combined))).

(** *** Point overlay and blending with the frame (lines 260-272) *)

(** [cv2.circle(img, center, radius, color, thickness)]: the binding takes
    a centre only if it is a pair of integers. *)
Definition cv2_circle (img : ndarray Z) (center : list (pyval F))
    (radius : Z) (color : Z * Z * Z) (thickness : Z) : result (ndarray Z) :=
  match center with
  | [PyInt x; PyInt y] => Ok (draw_circle img x y radius color thickness)
  | _ => Raise CvError
  end.

(** [for point in points: cv2.circle(img, tuple(point), ...)]. *)
Fixpoint draw_points (img : ndarray Z) (points : list (pyval F))
  : result (ndarray Z) :=
  match points with
  | [] => Ok img
  | point :: rest =>
      rbind (py_iter point) (fun center =>
      rbind (cv2_circle img center 5 (0, 0, 255)%Z (-1)) (fun img' =>
        draw_points img' rest))
  end.

(** Lines 263-265.  The loop runs over [coordinates_positive] itself, the
    node's STRING input (or its default [None]), not over the list parsed
    from it in the initialisation branch. *)
Definition overlay_points (a : inputs) (automask_colored : ndarray Z)
  : result (ndarray Z) :=
  if show_point a then
    match coordinates_positive a with
    | None => Raise TypeError
    | Some s => draw_points automask_colored (map PyStr (chars s))
    end
  else Ok automask_colored.

Definition scale (c : F) (t : image F) : image F :=
  map (map (map (fun v => fmul v c))) t.

Definition scale_mask (c : F) (m : plane Z) : plane F :=
  map (map (fun z => fmul (of_Z z) c)) m.

Definition scale_np (c : F) (a : ndarray Z) : ndarray F :=
  match a with
  | Gray m => Gray (scale_mask c m)
  | Color m => Color (map (scale_mask c) m)
  end.

(** The locals [mask] and [automask_colored] of one frame. *)
Definition frame_artifacts (a : inputs) (frame : image F)
    (out : option (logits F)) : result (plane Z * ndarray Z) :=
  rbind (match out with
         | Some l => Ok l
         | None => Raise UnboundLocalError
         end) (fun out_mask_logits =>
  let '(fh, fw, fc) := frame_shape frame in
  rbind (frame_mask (threshold a) out_mask_logits fh fw) (fun mask =>
  rbind (_process_mask (Mask2D mask) (fh, fw, fc)) (fun automask_colored =>
  rbind (overlay_points a automask_colored) (fun automask_colored =>
    Ok (mask, automask_colored))))).

(** Lines 267 and 271. *)
Definition automasked_frame_of (frame : image F) (automask_colored : ndarray Z)
  : result (image F) :=
  torch_add_np (scale (flit 7 10) frame) (scale_np (flit 3 10) automask_colored).

Definition constructed_mask_of (frame : image F) (mask : plane Z)
  : result (image F) :=
  torch_add (scale (flit 1 10) frame) (scale_mask (flit 9 10) mask).

Definition render (a : inputs) (frame : image F) (out : option (logits F))
  : result (image F * image F) :=
  rbind (frame_artifacts a frame out) (fun '(mask, automask_colored) =>
  rbind (automasked_frame_of frame automask_colored) (fun automasked_frame =>
  rbind (constructed_mask_of frame mask) (fun constructed_mask =>
    Ok (automasked_frame, constructed_mask)))).

(** *** [process_frame] and [segment_images] *)

(** Moving tensors to the device and the [inference_mode] and [autocast]
    contexts leave values and control flow as they are, and are left out. *)

(** The two Python lists [processed_frames] and [mask_list]. *)
Definition buffers : Type := (list (image F) * list (image F))%type.

Definition process_frame (a : inputs) (frame : image F) (frame_idx : nat)
    (acc : buffers) : prog store call buffers :=
  out <- obtain_logits a frame ;;
  r <- lift (render a frame out) ;;
  ret (fst acc ++ [fst r], snd acc ++ [snd r]).

(** Lines 275-276. *)
Fixpoint process_frames (a : inputs) (images : list (image F))
    (frame_idx : nat) (acc : buffers) : prog store call buffers :=
  match images with
  | [] => ret acc
  | img :: rest =>
      acc' <- process_frame a img frame_idx acc ;;
      process_frames a rest (S frame_idx) acc'
  end.

Definition shape3_eqb (t u : image F) : bool :=
  let '(a, b, c) := frame_shape t in
  let '(a', b', c') := frame_shape u in
  (a =? a') && (b =? b') && (c =? c').

(** [torch.stack(l, dim=0)]: the list itself is the new first dimension. *)
Definition torch_stack (l : list (image F)) : result (list (image F)) :=
  match l with
  | [] => Raise RuntimeError
  | t :: rest =>
      if forallb (shape3_eqb t) rest then Ok l else Raise RuntimeError
  end.

Definition adopt_predictor (model : ref) (s : store) : store :=
  match predictor (self s) with
  | None => Store (Node (Some model) (if_init (self s))) (heap s)
  | Some _ => s
  end.

Definition segment_images (a : inputs) (images : list (image F))
  : prog store call (list (image F) * list (image F)) :=
  let model := sm_model (sam2_model a) in
  invoke model (CallTo model "cuda") (fun m => to_device m "cuda") ;;;
  modify (adopt_predictor model) ;;;
  lists <- process_frames a images 0 ([], []) ;;
  stacked_masks <- lift (torch_stack (snd lists)) ;;
  stacked_frames <- lift (torch_stack (fst lists)) ;;
  ret (stacked_frames, stacked_masks).

(** Successive executions of the node on one instance: the store left by
    a call, also by one that raised, is the store the next call starts in. *)
Fixpoint run_calls (cs : list (inputs * list (image F))) (s : store)
  : store * list call :=
  match cs with
  | [] => (s, [])
  | (a, images) :: rest =>
      let o := segment_images a images s in
      let (s', later) := run_calls rest (post o) in
      (s', emitted o ++ later)
  end.

Local Close Scope prog_scope.
End Segmentation.

Arguments inputs F : clear implicits.
Arguments call F : clear implicits.
Arguments store M : clear implicits.
Arguments mask_tensor F : clear implicits.
Arguments buffers F : clear implicits.

(** ** [DownloadAndLoadSAM2RealtimeModel] *)

(** The host the loader runs on: CUDA, the file system layout, HTTP, Hydra
    and the checkpoint reader. *)
Class Host (Net Cfg Sd : Type) : Type := {
  cuda_device_major : result nat;   (* torch.cuda.get_device_properties(0).major *)
  cuda_is_available : bool;
  models_dir : string;              (* folder_paths.models_dir *)
  script_directory : string;
  path_join : string -> string -> string;
  (* requests.get(url, stream=True) and raise_for_status(): the chunks
     that iter_content yields and, when the stream or a write breaks off,
     the exception that ends it *)
  http_get : string -> result (list string * option exn);
  (* open(path, "wb"): raises when the file cannot be created, as when
     the directory is missing *)
  open_wb : string -> result unit;
  hydra_compose : string -> string -> list string -> result Cfg;
  omegaconf_resolve : Cfg -> result Cfg;
  instantiate : Cfg -> result Net;
  torch_load : string -> result Sd;            (* torch.load(...)["model"] *)
  load_state_dict : Net -> Sd -> result (Net * (list string * list string));
  net_to : Net -> string -> result Net;
  net_eval : Net -> Net
}.

Section Loader.
Context {Net Cfg Sd : Type} `{Host Net Cfg Sd}.

(** Process-wide and on-disk state the loader can change. *)
Record world : Type := World {
  allow_tf32_matmul : bool;    (* torch.backends.cuda.matmul.allow_tf32 *)
  allow_tf32_cudnn : bool;     (* torch.backends.cudnn.allow_tf32 *)
  files : list (string * string)
}.

Inductive effect : Type :=
| Stdout (args : list string)
| HttpGet (url : string)
| HydraCompose (config_name : string) (overrides : list string)
| HydraInstantiate
| TorchLoad (path : string)
| LogError (keys : list string)
| LogInfo (msg : string)
| NetTo (device : string)
| NetEval.

Record sam2_model_dict : Type := Sam2Model {
  d_model : Net;
  d_dtype : string;
  d_device : string;
  d_segmentor : string;
  d_version : string
}.

Fixpoint dict_get {A} (d : list (string * A)) (k : string) : result A :=
  match d with
  | [] => Raise KeyError
  | (k', v) :: rest => if String.eqb k' k then Ok v else dict_get rest k
  end.

Definition path_exists (w : world) (path : string) : bool :=
  existsb (fun kv => String.eqb (fst kv) path) (files w).

Definition enable_tf32 (w : world) : world :=
  World true true (files w).

(** The file once [open(path, "wb")] has returned and the chunks that
    arrived were written: it exists, truncated, and holds the non-empty
    chunks in order. *)
Definition write_chunks (path : string) (chunks : list string) (w : world)
  : world :=
  let body := String.concat "" (filter (fun c => negb (String.eqb c "")) chunks) in
  World (allow_tf32_matmul w) (allow_tf32_cudnn w)
        ((path, body) ::
         filter (fun kv => negb (String.eqb (fst kv) path)) (files w)).

Definition url : string :=
  "https://dl.fbaipublicfiles.com/segment_anything_2/072824/sam2_hiera_tiny.pt".

Definition hydra_overrides : list string :=
  [ "++model._target_=sam2_realtime.sam2_tensor_predictor.SAM2TensorPredictor";
    "++model.sam_mask_decoder_extra_args.dynamic_multimask_via_stability=true";
    "++model.sam_mask_decoder_extra_args.dynamic_multimask_stability_delta=0.05";
    "++model.sam_mask_decoder_extra_args.dynamic_multimask_stability_thresh=0.98";
    "++model.binarize_mask_from_pts_for_mem_enc=true";
    "++model.fill_hole_area=8" ]%string.

Local Open Scope prog_scope.

(** Lines 109-119, with [ckpt_path] never [None] at the only call. *)
Definition _load_checkpoint (model : Net) (ckpt_path : string)
  : prog world effect Net :=
  w <- get ;;
  emit (TorchLoad ckpt_path) ;;;
  body <- lift (match dict_get (files w) ckpt_path with
                | Ok b => Ok b
                | Raise _ => Raise OSError
                end) ;;
  sd <- lift (torch_load body) ;;
  loaded <- lift (load_state_dict model sd) ;;
  let '(model', (missing_keys, unexpected_keys)) := loaded in
  match missing_keys with
  | _ :: _ => emit (LogError missing_keys) ;;; raise RuntimeError
  | [] =>
      match unexpected_keys with
      | _ :: _ => emit (LogError unexpected_keys) ;;; raise RuntimeError
      | [] => emit (LogInfo "Loaded checkpoint sucessfully") ;;; ret model'
      end
  end.

Definition loadmodel (model segmentor device precision : string)
  : prog world effect sam2_model_dict :=
  if negb (String.eqb precision "fp32") && String.eqb device "cpu" then
    raise ValueError
  else
    (if String.eqb device "cuda" then
       major <- lift cuda_device_major ;;
       if 8 <=? major then modify enable_tf32 else ret tt
     else ret tt) ;;;
    dtype <- lift (dict_get [("bf16", "torch.bfloat16"); ("fp16", "torch.float16");
                             ("fp32", "torch.float32")]%string precision) ;;
    _ <- lift (dict_get [("cuda", "cuda"); ("cpu", "cpu"); ("mps", "mps")]%string
                        device) ;;
    let download_path := path_join models_dir "sam2" in
    let model_path := path_join download_path model in
    emit (Stdout ["model_path: "; model_path]%string) ;;;
    w <- get ;;
    (if negb (path_exists w model_path) then
       emit (Stdout [String.append "Downloading SAM2 model to: " model_path]) ;;;
       emit (HttpGet url) ;;;
       response <- lift (http_get url) ;;
       lift (open_wb model_path) ;;;
       modify (write_chunks model_path (fst response)) ;;;
       lift (match snd response with
             | Some e => Raise e
             | None => Ok tt
             end) ;;;
       emit (Stdout [String.append "Model saved to " model_path])
     else ret tt) ;;;
    let config_dir := path_join script_directory "sam2_configs" in
    let model_cfg := "sam2_hiera_t.yaml"%string in
    emit (HydraCompose model_cfg []) ;;;
    _ <- lift (hydra_compose config_dir model_cfg []) ;;
    emit (HydraCompose model_cfg hydra_overrides) ;;;
    cfg <- lift (hydra_compose config_dir model_cfg hydra_overrides) ;;
    cfg <- lift (omegaconf_resolve cfg) ;;
    emit HydraInstantiate ;;;
    net <- lift (instantiate cfg) ;;
    net <- _load_checkpoint net model_path ;;
    let device := if cuda_is_available then "cuda"%string else "cpu"%string in
    emit (NetTo device) ;;;
    net <- lift (net_to net device) ;;
    emit NetEval ;;;
    ret (Sam2Model (net_eval net) dtype device segmentor "2.0").

Local Close Scope prog_scope.
End Loader.

(** ** Vocabulary of the statements *)

Section Vocabulary.
Context {F M : Type}.
Context `{FloatOps F} `{PyRuntime F} `{TensorLib F} `{Model F M}.

Definition is_prompt (c : call F) : bool :=
  match c with
  | CallAddNewPrompt _ _ _ _ _ => true
  | _ => false
  end.

(** Prompt seeding: parsing the two inputs and prompting the network. *)
Definition is_seeding (c : call F) : bool :=
  match c with
  | CallLiteralEval _ | CallAddNewPrompt _ _ _ _ _ => true
  | _ => false
  end.

(** A call that only continues tracking on predictor [r]: moving a
    network to the device, or [r.track]. *)
Definition is_tracking (r : ref) (c : call F) : bool :=
  match c with
  | CallTo _ _ => true
  | CallTrack r' _ => r' =? r
  | _ => false
  end.




(** The list of positive coordinates and the list of labels as the
    initialising frame parses them. *)
Definition parsed_points (a : inputs F) : result (list (pyval F)) :=
  rbind (ast_literal_eval (coordinates_positive a)) py_iter.

Definition parsed_labels (a : inputs F) : result (list Z) :=
  rbind (ast_literal_eval (point_labels a)) int_seq.

(** The prompt prescribed for index [i]: frame 0, object [i + 1], the
    i-th coordinate as an integer tuple, the i-th label. *)
Definition prompt_for (r : ref) (points : list (pyval F)) (labels : list Z)
    (i : nat) : result (call F) :=
  rbind (list_index points i) (fun point =>
  rbind (int_seq point) (fun point_tuple =>
  rbind (list_index labels i) (fun label =>
    Ok (CallAddNewPrompt r 0 (i + 1) [point_tuple] [label])))).

(** What the prompts of an initialising frame must be, given how the two
    string inputs parse. *)
Definition prompts_as_parsed (a : inputs F) (r : ref) (ok : bool)
    (prompts : list (call F)) : Prop :=
  match parsed_points a, parsed_labels a with
  | Ok points, Ok labels =>
      exists k, k <= length points /\
        map Ok prompts = map (prompt_for r points labels) (seq 0 k) /\
        (ok = true -> k = length points)
  | _, _ => prompts = [] /\ ok = false
  end.

(** The predictor a call works with: the stored one, or the call's own
    network when none is stored yet. *)
Definition effective_predictor (a : inputs F) (s : store M) : ref :=
  match predictor (self s) with
  | Some p => p
  | None => sm_model (sam2_model a)
  end.

(** An initialised node has a predictor. *)
Definition has_predictor (s : store M) : Prop :=
  if_init (self s) = true -> exists r, predictor (self s) = Some r.


(** An h x w array: h rows of w entries each. *)
Definition rect {A} (h w : nat) (m : list (list A)) : Prop :=
  length m = h /\ Forall (fun row => length row = w) m.

(** Object [i]'s mask as [_process_mask] uses it (thresholded at 0,
    scaled to 255, fitted to the frame), and its value at a pixel. *)
Definition object_mask (m : logits F) (fh fw i : nat) : result (plane Z) :=
  rbind (current_mask_of (Mask4D m) i) (fun cm => fit_to_frame cm fh fw).

Definition object_value (m : logits F) (fh fw i y x : nat) : Z :=
  match object_mask m fh fw i with
  | Ok p => nth x (nth y p []) 0%Z
  | Raise _ => 0%Z
  end.

End Vocabulary.

(** ** A concrete host, for running the model on examples *)

(** Exact rationals in place of floats. *)
Definition q_float : FloatOps Q := {|
  fadd := Qplus;
  fsub := Qminus;
  fmul := Qmult;
  fdiv := Qdiv;
  fgt := fun x y => negb (Qle_bool x y);
  of_Z := inject_Z;
  flit := fun n d => Qmake n (Z.to_pos d);
  to_byte := fun x => (Qfloor x mod 256)%Z;
  ftrunc := fun x => Ok (Z.quot (Qnum x) (Zpos (Qden x)))
|}.

(** A reader for the few literals the examples use. *)
Definition table_literal_eval (s : string) : result (pyval Q) :=
  if String.eqb s "[[1, 1]]" then Ok (PyList [PyList [PyInt 1; PyInt 1]])
  else if String.eqb s "[[1, 2], [3, 4]]" then
    Ok (PyList [PyList [PyInt 1; PyInt 2]; PyList [PyInt 3; PyInt 4]])
  else if String.eqb s "[1]" then Ok (PyList [PyInt 1])
  else if String.eqb s "[1, 0]" then Ok (PyList [PyInt 1; PyInt 0])
  else Raise SyntaxError.

Definition table_runtime : PyRuntime Q := {|
  literal_eval := table_literal_eval;
  int_of_text := fun _ => Raise ValueError
|}.

(** *** torch and OpenCV on exact data *)

(** The integer nearest to [p / q] for [q > 0], ties to even. *)
Definition round_half_even (p q : Z) : Z :=
  let k := (p / q)%Z in
  let r := (p mod q)%Z in
  if (2 * r <? q)%Z then k
  else if (q <? 2 * r)%Z then (k + 1)%Z
  else if Z.even k then k else (k + 1)%Z.

(** IEEE binary32 rounding (to nearest, ties to even) of a non-negative
    rational, for values in the normal range: 24 significant bits. *)
Definition round_f32 (x : Q) : Q :=
  let n := Qnum x in
  let d := Zpos (Qden x) in
  if (n <=? 0)%Z then 0%Q
  else
    let e0 := (Z.log2 n - Z.log2 d)%Z in
    let below :=
      if (0 <=? e0)%Z then (n <? d * 2 ^ e0)%Z
      else (n * 2 ^ (- e0) <? d)%Z in
    let e := if below then (e0 - 1)%Z else e0 in
    let sh := (23 - e)%Z in
    if (0 <=? sh)%Z then
      Qmake (round_half_even (n * 2 ^ sh) d) (Z.to_pos (2 ^ sh))
    else
      inject_Z (round_half_even n (d * 2 ^ (- sh)) * 2 ^ (- sh)).

(** torch's nearest mode: [floorf(dst * scale)] with
    [scale = (float) in_size / out_size], both operations in binary32. *)
Definition f32_nearest_floor (in_size out_size dst : nat) : nat :=
  let scale := round_f32 (Z.of_nat in_size # Pos.of_nat out_size) in
  Z.to_nat (Qfloor (round_f32 (inject_Z (Z.of_nat dst) * scale))).

(** One axis of OpenCV's INTER_LINEAR for 8-bit images.  Destination
    index [dx] of [d] has its centre at [(dx + 0.5) * s / d - 0.5] in the
    source: the result is the source index below it and the weight of the
    next index in units of 1/2048 (11 fractional bits).  The coordinate is
    computed exactly here, where OpenCV goes through a float. *)
Definition linear_tap (s d dx : nat) : Z * Z :=
  let num := ((2 * Z.of_nat dx + 1) * Z.of_nat s - Z.of_nat d)%Z in
  let den := (2 * Z.of_nat d)%Z in
  ((num / den)%Z, round_half_even ((num mod den) * 2048) den).

Definition clip (z : Z) (size : nat) : nat :=
  Z.to_nat (Z.max 0 (Z.min z (Z.of_nat size - 1))).

(** [cv2.resize(src, (w, h))] with the default INTER_LINEAR on a uint8
    plane: a horizontal pass in fixed point, with the weight dropped at
    the borders, then a vertical pass over rows clipped to the image. *)
Definition resize_linear (m : plane Z) (w h : nat) : plane Z :=
  let sh := length m in
  let sw := length (hd [] m) in
  let px y x := nth x (nth y m []) 0%Z in
  let across y dx :=
    let (sx, a) := linear_tap sw w dx in
    let left := Z.to_nat sx in
    if (sx <? 0)%Z then (px y 0%nat * 2048)%Z
    else if (Z.of_nat sw - 1 <=? sx)%Z then (px y (sw - 1)%nat * 2048)%Z
    else (px y left * (2048 - a) + px y (S left) * a)%Z in
  build h w (fun dy dx =>
    let (sy, b) := linear_tap sh h dy in
    let upper := Z.shiftr (across (clip sy sh) dx) 4 in
    let lower := Z.shiftr (across (clip (sy + 1) sh) dx) 4 in
    Z.shiftr (Z.shiftr ((2048 - b) * upper) 16
              + Z.shiftr (b * lower) 16 + 2) 2).

(** Broadcasting of one pair of sizes. *)
Definition broadcast_dim (x y : nat) : option nat :=
  if x =? y then Some x
  else if x =? 1 then Some y
  else if y =? 1 then Some x
  else None.

(** [torch.add] of an [a x b] tensor to an H x W x C one: trailing
    dimensions are aligned, [a] with W and [b] with C, and a dimension of
    size 1 is stretched. *)
Definition broadcast_add (t : image Q) (m : plane Q) : result (image Q) :=
  let tw := length (hd [] t) in
  let tc := length (hd [] (hd [] t)) in
  let (mh, mw) := shape2 m in
  match broadcast_dim tw mh, broadcast_dim tc mw with
  | Some w, Some c =>
      Ok (map (fun rows =>
            build w c (fun x k =>
              Qplus (nth (if tc =? 1 then 0 else k)
                         (nth (if tw =? 1 then 0 else x) rows []) 0%Q)
                    (nth (if mw =? 1 then 0 else k)
                         (nth (if mh =? 1 then 0 else x) m []) 0%Q))) t)
  | _, _ => Raise RuntimeError
  end.

(** The libraries as the node meets them.  [cv2.resize] takes an array,
    not a numpy scalar, and an empty source or size is an error;
    [torch.add] takes tensors, not a numpy array.  [cv2.circle] is never
    given a centre it accepts, so what it would paint is left open. *)
Definition simple_lib : TensorLib Q := {|
  nearest_floor := f32_nearest_floor;
  cv2_resize := fun src w h =>
    match src with
    | Scalar _ => Raise CvError
    | Plane m =>
        if (length m =? 0) || (length (hd [] m) =? 0) || (w =? 0) || (h =? 0)
        then Raise CvError
        else Ok (resize_linear m w h)
    end;
  draw_circle := fun img _ _ _ _ _ => img;
  torch_add := broadcast_add;
  torch_add_np := fun _ _ => Raise TypeError
|}.

Definition demo_logits : logits Q :=
  [ [ [ [1; -1]; [0; 2] ] ] ]%Q.

(** A network that counts its calls and always answers [demo_logits]. *)
Definition counting_model : Model Q nat := {|
  load_first_frame := fun m _ => (S m, Ok tt);
  add_new_prompt := fun m _ _ _ _ => (S m, Ok demo_logits);
  track := fun m _ => (S m, Ok ([1%Z], demo_logits));
  to_device := fun m _ => (m, Ok tt)
|}.

Definition demo_frame : image Q :=
  build 3 3 (fun y x => [inject_Z (Z.of_nat y); inject_Z (Z.of_nat x); 1%Q]).

Definition demo_inputs (coords labels : option string) (show : bool) : inputs Q :=
  Inputs (Sam2Dict 7 "cuda") coords labels (1 # 2)%Q show.

Definition fresh_store : store nat := Store __init__ (fun _ => 0).

Definition demo_host : Host nat unit unit := {|
  cuda_device_major := Ok 8;
  cuda_is_available := true;
  models_dir := "/models";
  script_directory := "/nodes";
  path_join := fun a b => String.append a (String.append "/" b);
  http_get := fun _ => Ok (["weights"%string], None);
  open_wb := fun _ => Ok tt;
  hydra_compose := fun _ _ _ => Ok tt;
  omegaconf_resolve := fun c => Ok c;
  instantiate := fun _ => Ok 0;
  torch_load := fun _ => Ok tt;
  load_state_dict := fun n _ => Ok (S n, ([], []));
  net_to := fun n _ => Ok n;
  net_eval := fun n => n
|}.

Definition empty_world : world := World false false [].

(** Runs used as examples below. *)
Definition seeded_inputs : inputs Q :=
  demo_inputs (Some "[[1, 2], [3, 4]]"%string) (Some "[1, 0]"%string) false.

Definition bare_inputs : inputs Q := demo_inputs None None false.

Definition overlay_inputs : inputs Q :=
  demo_inputs (Some "[[1, 1]]"%string) (Some "[1]"%string) true.

(** ** Further vocabulary: the loader *)

Section LoaderVocabulary.
Context {Net Cfg Sd : Type} `{Host Net Cfg Sd}.

(** Where [loadmodel] keeps the checkpoint named [model]. *)
Definition model_path_of (model : string) : string :=
  path_join (path_join models_dir "sam2") model.

Definition is_download (e : effect) : bool :=
  match e with
  | HttpGet _ => true
  | _ => false
  end.

(** The torch dtype that [loadmodel] looks up for a precision. *)
Definition dtype_of (precision : string) : result string :=
  dict_get [("bf16", "torch.bfloat16"); ("fp16", "torch.float16");
            ("fp32", "torch.float32")]%string precision.
End LoaderVocabulary.

(** [DownloadAndLoadSAM2RealtimeModel.INPUT_TYPES] (lines 33-48): the
    choices the host offers for each required input, and the default
    precision. *)
Record loader_input_types : Type := LoaderInputTypes {
  it_model : list string;
  it_segmentor : list string;
  it_device : list string;
  it_precision : list string;
  it_precision_default : string
}.

Definition INPUT_TYPES : loader_input_types := {|
  it_model := ["sam2_hiera_tiny.pt"]%string;
  it_segmentor := ["realtime"]%string;
  it_device := ["cuda"; "cpu"; "mps"]%string;
  it_precision := ["fp16"; "bf16"; "fp32"]%string;
  it_precision_default := "fp16"%string
|}.

(** ** Further vocabulary: the segmentation node *)

(** Which entries of the first column of a 2-D mask are positive; [None]
    for a row without entries. *)
Definition first_column_signs (m : plane Z) : list (option bool) :=
  map (fun row => option_map (Z.ltb 0) (nth_error row 0)) m.

(** [segment_images] called with the required inputs only: the optional
    ones take the defaults of its signature (lines 206-213). *)
Definition default_inputs {F : Type} `{FloatOps F} (m : sam2_dict) : inputs F :=
  Inputs m None None (flit 1 2) false.

Section SeedingVocabulary.
Context {F M : Type}.
Context `{FloatOps F} `{PyRuntime F} `{TensorLib F} `{Model F M}.

Local Open Scope prog_scope.

(** Lines 235-246 on their own: what the initialising frame does once
    [load_first_frame] has returned and [if_init] is set. *)
Definition seeding (a : inputs F) (r : ref)
  : prog (store M) (call F) (option (logits F)) :=
  emit (CallLiteralEval (coordinates_positive a)) ;;;
  coordinates_positive_list <-
    lift (ast_literal_eval (coordinates_positive a)) ;;
  emit (CallLiteralEval (point_labels a)) ;;;
  point_labels_list <- lift (ast_literal_eval (point_labels a)) ;;
  point_labels_list <- lift (int_seq point_labels_list) ;;
  points <- lift (py_iter coordinates_positive_list) ;;
  seed_prompts r point_labels_list 0 points None.

Local Close Scope prog_scope.

(** A network whose methods used in initialisation do not raise. *)
Definition to_never_raises : Prop :=
  forall (m : M) (d : string), snd (to_device m d) = Ok tt.

Definition load_never_raises : Prop :=
  forall (m : M) (f : image F), snd (load_first_frame m f) = Ok tt.

Definition prompt_never_raises : Prop :=
  forall (m : M) (i o : nat) (pts : list (list Z)) (ls : list Z),
    exists l, snd (add_new_prompt m i o pts ls) = Ok l.
End SeedingVocabulary.

(** Blending a transparent pixel over zero gives zero:
    [(1 - 0/255) * 0 + (0/255) * 0 = 0], which IEEE arithmetic computes
    exactly. *)
Definition transparent_keeps_zero {F : Type} `{FloatOps F} : Prop :=
  fadd (fmul (fsub (of_Z 1) (fdiv (of_Z 0) (of_Z 255))) (of_Z 0))
       (fmul (fdiv (of_Z 0) (of_Z 255)) (of_Z 0))
  = of_Z 0.

(** ** More of the concrete host *)

(** Rationals kept in lowest terms, so that equal numbers are equal terms. *)
Definition qred_float : FloatOps Q := {|
  fadd := fun x y => Qred (x + y);
  fsub := fun x y => Qred (x - y);
  fmul := fun x y => Qred (x * y);
  fdiv := fun x y => Qred (x / y);
  fgt := fun x y => negb (Qle_bool x y);
  of_Z := inject_Z;
  flit := fun n d => Qred (Qmake n (Z.to_pos d));
  to_byte := fun x => (Qfloor x mod 256)%Z;
  ftrunc := fun x => Ok (Z.quot (Qnum x) (Zpos (Qden x)))
|}.

(** The reader of [table_runtime], knowing the empty list as well. *)
Definition wider_runtime : PyRuntime Q := {|
  literal_eval := fun s =>
    if String.eqb s "[]" then Ok (PyList []) else table_literal_eval s;
  int_of_text := fun _ => Raise ValueError
|}.

(** A host whose download breaks off after the first chunk, and whose
    checkpoint reader accepts only the complete file. *)
Definition flaky_host : Host nat unit unit := {|
  cuda_device_major := Ok 8;
  cuda_is_available := true;
  models_dir := "/models";
  script_directory := "/nodes";
  path_join := fun a b => String.append a (String.append "/" b);
  http_get := fun _ => Ok (["wei"%string], Some OSError);
  open_wb := fun _ => Ok tt;
  hydra_compose := fun _ _ _ => Ok tt;
  omegaconf_resolve := fun c => Ok c;
  instantiate := fun _ => Ok 0;
  torch_load := fun body =>
    if String.eqb body "weights" then Ok tt else Raise RuntimeError;
  load_state_dict := fun n _ => Ok (S n, ([], []));
  net_to := fun n _ => Ok n;
  net_eval := fun n => n
|}.

(** A host on which the checkpoint file cannot be created. *)
Definition readonly_host : Host nat unit unit := {|
  cuda_device_major := Ok 8;
  cuda_is_available := true;
  models_dir := "/models";
  script_directory := "/nodes";
  path_join := fun a b => String.append a (String.append "/" b);
  http_get := fun _ => Ok (["weights"%string], None);
  open_wb := fun _ => Raise OSError;
  hydra_compose := fun _ _ _ => Ok tt;
  omegaconf_resolve := fun c => Ok c;
  instantiate := fun _ => Ok 0;
  torch_load := fun _ => Ok tt;
  load_state_dict := fun n _ => Ok (S n, ([], []));
  net_to := fun n _ => Ok n;
  net_eval := fun n => n
|}.

(** A world where the checkpoint is already on disk. *)
Definition stocked_world : world :=
  World false false [("/models/sam2/sam2_hiera_tiny.pt", "weights")]%string.




(** Six objects on a frame of one row and two columns: objects 0 and 1
    both cover the left pixel, object 5 covers the right one, and the
    others cover nothing. *)
Definition six_objects : logits Q :=
  [ [ [ [1; -1] ] ]; [ [ [1; -1] ] ]; [ [ [-1; -1] ] ];
    [ [ [-1; -1] ] ]; [ [ [-1; -1] ] ]; [ [ [-1; 1] ] ] ]%Q.

(** A mask of one object that has no channel at all (shape 1 x 0 x 2 x 2). *)
Definition channelless_mask : logits Q := [ [] ].

Definition short_label_inputs : inputs Q :=
  demo_inputs (Some "[[1, 2], [3, 4]]"%string) (Some "[1]"%string) false.

Definition empty_list_inputs : inputs Q :=
  demo_inputs (Some "[]"%string) (Some "[1]"%string) false.

(** * Properties *)

(** ** Lists and arrays *)

Lemma map_seq_const {A} (c : A) (n start : nat) :
  map (fun _ => c) (seq start n) = repeat c n.
Proof.
  revert start; induction n as [|n IH]; intros start; simpl; [reflexivity|].
  now rewrite IH.
Qed.

Lemma build_const {A} (c : A) (h w : nat) :
  build h w (fun _ _ => c) = repeat (repeat c w) h.
Proof.
  unfold build. rewrite (map_seq_const c w 0). apply map_seq_const.
Qed.

Lemma build_rect {A} (h w : nat) (f : nat -> nat -> A) : rect h w (build h w f).
Proof.
  unfold rect, build; split.
  - now rewrite length_map, length_seq.
  - apply Forall_forall; intros row Hin.
    apply in_map_iff in Hin as (y & <- & _).
    now rewrite length_map, length_seq.
Qed.

Lemma build_nth {A} (h w : nat) (f : nat -> nat -> A) (y x : nat) (d : A) :
  y < h -> x < w -> nth x (nth y (build h w f) []) d = f y x.
Proof.
  intros Hy Hx. unfold build.
  rewrite (nth_indep _ [] (map (fun x0 => f 0 x0) (seq 0 w)))
    by now rewrite length_map, length_seq.
  rewrite (map_nth (fun y0 => map (fun x0 => f y0 x0) (seq 0 w)) (seq 0 h) 0 y).
  rewrite seq_nth by assumption. simpl.
  rewrite (nth_indep _ d (f y 0)) by now rewrite length_map, length_seq.
  rewrite (map_nth (fun x0 => f y x0) (seq 0 w) 0 x).
  now rewrite seq_nth.
Qed.





Lemma shape2_map {A B} (g : A -> B) (m : list (list A)) :
  shape2 (map (map g) m) = shape2 m.
Proof.
  unfold shape2. rewrite length_map. destruct m; simpl; [reflexivity|].
  now rewrite length_map.
Qed.

Lemma rect_row {A} (h w : nat) (m : list (list A)) (y : nat) :
  rect h w m -> y < h -> length (nth y m []) = w.
Proof.
  intros [Hlen Hrows] Hy.
  rewrite Forall_forall in Hrows. apply Hrows, nth_In. lia.
Qed.

(** ** The per-frame mask *)

Section FrameMask.
Context {F M : Type}.
Context `{FloatOps F} `{PyRuntime F} `{TensorLib F} `{Model F M}.









End FrameMask.

(** ** Colouring the objects *)

Lemma zip_with_length {A B C} (f : A -> B -> C) (l : list A) (r : list B) :
  length (zip_with f l r) = Nat.min (length l) (length r).
Proof.
  revert r; induction l as [|a l IH]; intros [|b r]; simpl; auto.
Qed.

Lemma zip_with_nth {A B C} (f : A -> B -> C) (l : list A) (r : list B)
    (i : nat) (da : A) (db : B) (d : C) :
  i < length l -> i < length r ->
  nth i (zip_with f l r) d = f (nth i l da) (nth i r db).
Proof.
  revert r i; induction l as [|a l IH]; intros [|b r] [|i]; simpl;
    intros Hl Hr; try lia; auto.
  apply IH; lia.
Qed.

Lemma zip_with_rows {A B C} (f : A -> B -> C) (w : nat)
    (l : list (list A)) (r : list (list B)) :
  Forall (fun row => length row = w) l ->
  Forall (fun row => length row = w) r ->
  Forall (fun row => length row = w) (zip_with (zip_with f) l r).
Proof.
  intros Hl; revert r; induction Hl as [|a l Ha Hl IH]; intros r Hr;
    [constructor|].
  destruct Hr as [|b r Hb Hr]; simpl; constructor; auto.
  rewrite zip_with_length, Ha, Hb. apply Nat.min_id.
Qed.

Section ProcessMask.
Context {F M : Type}.
Context `{FloatOps F} `{PyRuntime F} `{TensorLib F} `{Model F M}.

Lemma colored_pixel_length (i : nat) (v : Z) : length (colored_pixel i v) = 4.
Proof.
  unfold colored_pixel. change (length colors) with 5.
  assert (Hi : i mod 5 < 5) by (apply Nat.mod_upper_bound; lia).
  destruct (0 <? v)%Z; [|reflexivity].
  rewrite length_app.
  destruct (i mod 5) as [|[|[|[|[|k]]]]]; simpl; lia.
Qed.

Lemma blend_pixel_length (c : list F) (k : list Z) :
  length c = 4 -> length k = 4 -> length (blend_pixel c k) = 4.
Proof.
  intros Hc Hk. unfold blend_pixel. now rewrite zip_with_length, Hc, Hk.
Qed.

Lemma fold_blend_length (ks : list (list Z)) (c : list F) :
  Forall (fun k => length k = 4) ks -> length c = 4 ->
  length (fold_left blend_pixel ks c) = 4.
Proof.
  intros Hks; revert c; induction Hks as [|k ks Hk Hks IH]; intros c Hc;
    simpl; [exact Hc|].
  apply IH. now apply blend_pixel_length.
Qed.

Lemma blend_rect (fh fw : nat) (combined : image F) (colored : image Z) :
  rect fh fw combined -> rect fh fw colored ->
  rect fh fw (blend combined colored).
Proof.
  intros [Hl Hr] [Hl' Hr']. unfold blend; split.
  - rewrite zip_with_length, Hl, Hl'. apply Nat.min_id.
  - now apply zip_with_rows.
Qed.

Lemma blend_nth (fh fw : nat) (combined : image F) (colored : image Z)
    (y x : nat) :
  rect fh fw combined -> rect fh fw colored -> y < fh -> x < fw ->
  nth x (nth y (blend combined colored) []) []
  = blend_pixel (nth x (nth y combined []) []) (nth x (nth y colored []) []).
Proof.
  intros Hc Hk Hy Hx. unfold blend.
  rewrite (zip_with_nth _ combined colored [] [] [])
    by (destruct Hc as [Hc1 _], Hk as [Hk1 _]; lia).
  apply zip_with_nth.
  - now rewrite (rect_row Hc Hy).
  - now rewrite (rect_row Hk Hy).
Qed.

(** The loop of [_process_mask], pixel by pixel: each object in turn is
    blended over what the earlier ones left. *)
Lemma blend_objects_pixels (m : logits F) (fh fw : nat) (range : list nat) :
  forall combined : image F,
  rect fh fw combined ->
  (forall i, In i range ->
     exists p, object_mask m fh fw i = Ok p /\ shape2 p = (fh, fw)) ->
  exists res,
    blend_objects (Mask4D m) fh fw range combined = Ok res /\
    rect fh fw res /\
    forall y x, y < fh -> x < fw ->
      nth x (nth y res []) []
      = fold_left blend_pixel
          (map (fun i => colored_pixel i (object_value m fh fw i y x)) range)
          (nth x (nth y combined []) []).
Proof.
  induction range as [|i range IH]; intros combined Hrect Hobj.
  - exists combined. simpl. auto.
  - destruct (Hobj i (or_introl eq_refl)) as (p & Hp & Hshape).
    assert (Hval : forall y x, object_value m fh fw i y x
                               = nth x (nth y p []) 0%Z)
      by (intros; unfold object_value; now rewrite Hp).
    unfold object_mask in Hp.
    cbn [blend_objects].
    destruct (current_mask_of (Mask4D m) i) as [cm|e]; cbn [rbind] in *;
      [|discriminate].
    rewrite Hp. cbn [rbind].
    unfold colored_mask_of. rewrite Hshape.
    unfold shape_eqb. cbn [fst snd]. rewrite !Nat.eqb_refl. cbn [andb rbind].
    set (colored := build fh fw _).
    assert (Hk : rect fh fw colored) by apply build_rect.
    destruct (IH (blend combined colored) (blend_rect Hrect Hk))
      as (res & Hres & Hrr & Hpix).
    { intros j Hj. apply Hobj. now right. }
    exists res. split; [exact Hres|]. split; [exact Hrr|].
    intros y x Hy Hx. rewrite (Hpix y x Hy Hx). cbn [map fold_left].
    rewrite (blend_nth Hrect Hk Hy Hx). unfold colored.
    rewrite build_nth by assumption. now rewrite Hval.
Qed.

Lemma in_rect_nth {A} (P : A -> Prop) (h w : nat) (m : list (list A)) (d : A) :
  rect h w m ->
  (forall y x, y < h -> x < w -> P (nth x (nth y m []) d)) ->
  Forall (Forall P) m.
Proof.
  intros Hr Hp. apply Forall_forall; intros row Hrow.
  destruct (In_nth m row [] Hrow) as (y & Hy & <-).
  destruct Hr as [Hlen Hrows]. rewrite Hlen in Hy.
  apply Forall_forall; intros v Hv.
  destruct (In_nth _ v d Hv) as (x & Hx & <-).
  rewrite (rect_row (conj Hlen Hrows) Hy) in Hx. now apply Hp.
Qed.

(** The empty branch of [_process_mask]: a 2-D array of zeros. *)
Lemma process_mask_empty (fh fw fc : nat) :
  _process_mask (Mask4D []) (fh, fw, fc) = Ok (Gray (repeat (repeat 0%Z fw) fh)).
Proof. unfold _process_mask. simpl. now rewrite build_const. Qed.

(** C4, as the code has it.  A mask of zero objects gives a 2-D array
    of zeros of the frame's height and width.  For a mask of at least one
    object, where every object [i] has a plane [mask[i, 0]] whose
    thresholded form ([> 0], as 0 or 255) has the frame's height and width
    or is brought to them by [cv2.resize], [_process_mask] returns an image
    of the frame's height and width whose pixels have 3 uint8 channels.
    Object [i] is painted in colour [i mod 5] of the palette with alpha 128
    where its mask is positive and is transparent black elsewhere; at every
    pixel the objects are blended in index order, starting from zero, by
    [combined = (1 - alpha) * combined + alpha * colored] with
    [alpha = colored[3] / 255]; the first three channels are then cast to
    uint8. *)
Theorem process_mask_objects `{!FloatLaws F} (m : logits F) (fh fw fc : nat) :
  (length m = 0 ->
   _process_mask (Mask4D m) (fh, fw, fc)
   = Ok (Gray (repeat (repeat 0%Z fw) fh))) /\
  (forall i pl channels,
     nth_error m i = Some (pl :: channels) ->
     let current :=
       map (map (fun v => if fgt v (of_Z 0) then 255%Z else 0%Z)) pl in
     object_mask m fh fw i
     = if shape_eqb (shape2 pl) (fh, fw) then Ok current
       else cv2_resize (Plane current) fw fh) /\
  (forall i v,
     colored_pixel i v
     = if (0 <? v)%Z
       then nth (i mod 5)
              [ [255; 0; 255]; [0; 255; 255]; [255; 255; 0];
                [0; 255; 0]; [255; 0; 0] ]%Z [] ++ [128%Z]
       else [0; 0; 0; 0]%Z) /\
  (forall c0 c1 c2 c3 k0 k1 k2 k3,
     let alpha := fdiv (of_Z k3) (of_Z 255) in
     let over c k := fadd (fmul (fsub (of_Z 1) alpha) c) (fmul alpha (of_Z k)) in
     blend_pixel [c0; c1; c2; c3] [k0; k1; k2; k3]
     = [over c0 k0; over c1 k1; over c2 k2; over c3 k3]) /\
  (0 < length m ->
   (forall i, i < length m ->
      exists p, object_mask m fh fw i = Ok p /\ shape2 p = (fh, fw)) ->
   exists img,
     _process_mask (Mask4D m) (fh, fw, fc) = Ok (Color img) /\
     rect fh fw img /\
     Forall (Forall (fun px =>
       length px = 3 /\ Forall (fun v => (0 <= v < 256)%Z) px)) img /\
     forall y x, y < fh -> x < fw ->
       nth x (nth y img []) []
       = map to_byte (firstn 3
           (fold_left blend_pixel
              (map (fun i => colored_pixel i (object_value m fh fw i y x))
                   (seq 0 (length m)))
              (repeat (of_Z 0) 4)))).
Proof.
  split.
  { intros Hz. destruct m; [apply process_mask_empty | discriminate]. }
  split.
  { intros i pl channels Hi. cbn zeta.
    unfold object_mask, current_mask_of, list_index. rewrite Hi.
    cbn [rbind nth_error fit_to_frame]. now rewrite shape2_map. }
  split; [reflexivity|]. split; [reflexivity|].
  intros Hn Hobj.
  destruct (@blend_objects_pixels m fh fw (seq 0 (length m))
              (build fh fw (fun _ _ => repeat (of_Z 0) 4)))
    as (res & Hres & Hrect & Hpix).
  { apply build_rect. }
  { intros i Hi. apply in_seq in Hi. apply Hobj. lia. }
  assert (Hform : forall y x, y < fh -> x < fw ->
    nth x (nth y (to_bgr res) []) []
    = map to_byte (firstn 3
        (fold_left blend_pixel
           (map (fun i => colored_pixel i (object_value m fh fw i y x))
                (seq 0 (length m)))
           (repeat (of_Z 0) 4)))).
  { intros y x Hy Hx. unfold to_bgr.
    change (@nil (list Z))
      with (map (fun px : list F => map to_byte (firstn 3 px)) []) at 1.
    rewrite map_nth.
    change (@nil Z) with ((fun px : list F => map to_byte (firstn 3 px)) []).
    rewrite map_nth. rewrite (Hpix y x Hy Hx).
    now rewrite build_nth by assumption. }
  assert (Hrect' : rect fh fw (to_bgr res)).
  { destruct Hrect as [Hl Hr]. unfold to_bgr; split.
    - now rewrite length_map.
    - apply Forall_forall; intros row Hin.
      apply in_map_iff in Hin as (r & <- & Hin). rewrite length_map.
      rewrite Forall_forall in Hr. now apply Hr. }
  exists (to_bgr res). split; [|split; [exact Hrect'|split; [|exact Hform]]].
  - unfold _process_mask. cbn [mask_len].
    destruct (length m =? 0) eqn:E; [apply Nat.eqb_eq in E; lia|].
    now rewrite Hres.
  - apply (in_rect_nth _ [] Hrect'). intros y x Hy Hx.
    rewrite (Hform y x Hy Hx). split.
    + rewrite length_map, length_firstn, fold_blend_length; [reflexivity| |].
      * apply Forall_forall; intros k Hk.
        apply in_map_iff in Hk as (i & <- & _). apply colored_pixel_length.
      * reflexivity.
    + apply Forall_forall; intros v Hv.
      apply in_map_iff in Hv as (u & <- & _). apply to_byte_range.
Qed.

(** C5, what the code does instead.  With [show_point] on and a
    non-empty coordinate string, the overlay loop hands [cv2.circle] the
    string's first character as a one-element centre; the call is
    refused, so no circle is painted and the frame produces no output. *)
Theorem show_point_raises (a : inputs F) (c : ascii) (rest : string) :
  show_point a = true ->
  coordinates_positive a = Some (String c rest) ->
  (forall img, overlay_points a img = Raise CvError) /\
  (forall frame out, succeeded (render a frame out) = false).
Proof.
  intros Hshow Hcoords.
  assert (E : forall img, overlay_points a img = Raise CvError).
  { intros img. unfold overlay_points. now rewrite Hshow, Hcoords. }
  split; [exact E|].
  intros frame out. unfold render, frame_artifacts.
  destruct out as [l|]; cbn [rbind]; [|reflexivity].
  destruct (frame_shape frame) as [[fh fw] fc].
  destruct (frame_mask _ _ _ _) as [mask|e]; cbn [rbind]; [|reflexivity].
  destruct (_process_mask _ _) as [col|e]; cbn [rbind]; [|reflexivity].
  now rewrite E.
Qed.
End ProcessMask.

(** ** The loader's precision guard *)

Section LoaderFacts.
Context {Net Cfg Sd : Type} `{Host Net Cfg Sd}.

(** C8.  With device "cpu" and any precision other than "fp32",
    [loadmodel] raises ValueError at once: nothing was printed,
    downloaded, composed or instantiated, and the TF32 switches and the
    files are as they were. *)
Theorem loadmodel_cpu_needs_fp32 (model segmentor device precision : string)
    (w : world) :
  device = "cpu"%string ->
  precision <> "fp32"%string ->
  loadmodel model segmentor device precision w = Outcome w [] (Raise ValueError).
Proof.
  intros -> Hp. unfold loadmodel.
  apply String.eqb_neq in Hp. rewrite Hp. reflexivity.
Qed.
End LoaderFacts.

(** ** The frame-processing state machine *)

Section StateMachine.
Context {F M : Type}.
Context `{FloatOps F} `{PyRuntime F} `{TensorLib F} `{Model F M}.

Ltac run_prog :=
  unfold bind, get, modify, emit, lift, ret, raise, the_predictor;
  cbn [post emitted value].

Lemma invoke_shape {A} (r : ref) (c : call F) (method : M -> M * result A)
    (s : store M) :
  exists hp res, invoke r c method s = Outcome (Store (self s) hp) [c] res.
Proof.
  unfold invoke. destruct (method (heap s r)) as [m' res]. eauto.
Qed.

Ltac step_invoke hp res :=
  match goal with
  | |- context [invoke ?r ?c ?f ?s] =>
      let E := fresh "E" in
      destruct (invoke_shape r c f s) as (hp & res & E);
      rewrite !E; clear E; cbn [post emitted value self heap]
  end.

Lemma bind_pure {S E A B} (m : prog S E A) (k : A -> prog S E B) (s : S)
    (a : A) :
  m s = Outcome s [] (Ok a) -> bind m k s = k a s.
Proof.
  intros E0. unfold bind. rewrite E0. now destruct (k a s).
Qed.

Lemma invoke_run {A} (r : ref) (c : call F) (method : M -> M * result A)
    (s : store M) :
  invoke r c method s
  = Outcome (Store (self s)
               (fun r' => if r' =? r then fst (method (heap s r)) else heap s r'))
            [c] (snd (method (heap s r))).
Proof. unfold invoke. now destruct (method (heap s r)). Qed.

Lemma obtain_logits_uninit (a : inputs F) (frame : image F) (s : store M)
    (r : ref) :
  if_init (self s) = false -> predictor (self s) = Some r ->
  obtain_logits a frame s
  = bind (invoke r (CallLoadFirstFrame r frame)
            (fun m => load_first_frame m frame))
      (fun _ => bind (modify set_if_init) (fun _ => seeding a r)) s.
Proof.
  intros Hi Hp. unfold obtain_logits.
  rewrite (@bind_pure _ _ _ _ get _ s s) by reflexivity.
  rewrite Hi. cbn [negb].
  rewrite (@bind_pure _ _ _ _ the_predictor _ s r)
    by (unfold the_predictor; now rewrite Hp).
  reflexivity.
Qed.

Lemma list_index_app {A} (done rest : list A) (x : A) :
  list_index (done ++ x :: rest) (length done) = Ok x.
Proof.
  unfold list_index. rewrite nth_error_app2 by lia.
  now rewrite Nat.sub_diag.
Qed.

(** The seeding loop issues the prescribed prompts, one per index and in
    index order, for as long as it runs; it runs through the whole list
    when it does not raise. *)
Lemma seed_prompts_calls (r : ref) (labels : list Z) (points : list (pyval F)) :
  forall (done : list (pyval F)) (out : option (logits F)) (s : store M),
  let o := seed_prompts r labels (length done) points out s in
  self (post o) = self s /\
  exists k, k <= length points /\
    map Ok (emitted o)
    = map (prompt_for r (done ++ points) labels) (seq (length done) k) /\
    (succeeded (value o) = true -> k = length points).
Proof.
  induction points as [|p rest IH]; intros done out s.
  - cbn. split; [reflexivity|]. exists 0. cbn. auto.
  - cbn zeta. cbn [seed_prompts]. run_prog.
    assert (Hp : prompt_for r (done ++ p :: rest) labels (length done)
                 = rbind (int_seq p) (fun point_tuple =>
                   rbind (list_index labels (length done)) (fun label =>
                     Ok (CallAddNewPrompt r 0 (length done + 1)
                           [point_tuple] [label])))).
    { unfold prompt_for. now rewrite list_index_app. }
    destruct (int_seq p) as [pt|e]; cbn [value post emitted rbind] in *.
    2:{ split; [reflexivity|]. exists 0. cbn. repeat split; auto; try lia;
        try discriminate. }
    destruct (list_index labels (length done)) as [l|e];
      cbn [value post emitted rbind] in *.
    2:{ split; [reflexivity|]. exists 0. cbn. repeat split; auto; try lia;
        try discriminate. }
    step_invoke hp res. destruct res as [lg|e]; cbn [value post emitted app].
    2:{ split; [reflexivity|]. exists 1. cbn [map seq]. rewrite Hp.
        repeat split; auto; cbn; try lia; try discriminate. }
    set (s' := Store (self s) hp).
    specialize (IH (done ++ [p]) (Some lg) s').
    rewrite length_app, Nat.add_1_r in IH. cbn zeta in IH.
    rewrite <- app_assoc in IH. cbn [app] in IH.
    destruct IH as (Hself & k & Hk & Hcalls & Hok).
    destruct (seed_prompts r labels (S (length done)) rest (Some lg) s')
      as [p' e' v'].
    cbn [post emitted value self app] in *.
    split; [exact Hself|]. exists (S k). cbn [length].
    split; [lia|]. split.
    + cbn [map seq]. rewrite Hp, Hcalls. reflexivity.
    + intros Hs. f_equal. now apply Hok.
Qed.

(** Once initialised, a frame costs exactly one call, [track(frame)], on
    the stored predictor, and the instance fields stay as they are. *)
Lemma obtain_logits_tracking (a : inputs F) (frame : image F) (s : store M)
    (r : ref) :
  if_init (self s) = true -> predictor (self s) = Some r ->
  let o := obtain_logits a frame s in
  emitted o = [CallTrack r frame] /\ self (post o) = self s.
Proof.
  intros Hinit Hpred. cbn zeta. unfold obtain_logits. run_prog.
  rewrite Hinit. cbn [negb]. run_prog. rewrite Hpred. run_prog.
  step_invoke hp res. destruct res as [t|e]; cbn [post emitted value app];
    auto.
Qed.

(** The initialising frame: [load_first_frame], then the two parses, then
    the prompts.  If [load_first_frame] itself raises, the flag stays
    unset. *)
Lemma obtain_logits_first (a : inputs F) (frame : image F) (s : store M)
    (r : ref) :
  if_init (self s) = false -> predictor (self s) = Some r ->
  let o := obtain_logits a frame s in
  (emitted o = [CallLoadFirstFrame r frame] /\ self (post o) = self s /\
   succeeded (value o) = false)
  \/
  (self (post o) = Node (Some r) true /\
   exists lits prompts,
     emitted o = CallLoadFirstFrame r frame :: lits ++ prompts /\
     Forall (fun c => exists x, c = CallLiteralEval x) lits /\
     prompts_as_parsed a r (succeeded (value o)) prompts).
Proof.
  intros Hinit Hpred. cbn zeta. unfold obtain_logits. run_prog.
  rewrite Hinit. cbn [negb]. run_prog. rewrite Hpred. run_prog.
  step_invoke hp res. destruct res as [[]|e]; cbn [post emitted value app].
  2:{ left. auto. }
  right. unfold set_if_init. cbn [self heap predictor]. rewrite Hpred.
  unfold prompts_as_parsed, parsed_points, parsed_labels.
  destruct (ast_literal_eval (coordinates_positive a)) as [cv|e];
    cbn [post emitted value app rbind self].
  2:{ split; [reflexivity|].
      exists [CallLiteralEval (coordinates_positive a)], [].
      repeat split; auto. repeat constructor. eauto. }
  destruct (ast_literal_eval (point_labels a)) as [lv|e];
    cbn [post emitted value app rbind self].
  2:{ split; [reflexivity|].
      exists [CallLiteralEval (coordinates_positive a);
              CallLiteralEval (point_labels a)], [].
      repeat split; auto; [repeat constructor; eauto|].
      destruct (py_iter cv); auto. }
  destruct (int_seq lv) as [labels|e];
    cbn [post emitted value app rbind self].
  2:{ split; [reflexivity|].
      exists [CallLiteralEval (coordinates_positive a);
              CallLiteralEval (point_labels a)], [].
      repeat split; auto; [repeat constructor; eauto|].
      destruct (py_iter cv); auto. }
  destruct (py_iter cv) as [points|e];
    cbn [post emitted value app rbind self].
  2:{ split; [reflexivity|].
      exists [CallLiteralEval (coordinates_positive a);
              CallLiteralEval (point_labels a)], [].
      repeat split; auto. repeat constructor; eauto. }
  set (s1 := Store (Node (Some r) true) hp).
  destruct (@seed_prompts_calls r labels points [] None s1)
    as (Hself & k & Hk & Hcalls & Hok).
  cbn [length app] in *.
  destruct (seed_prompts r labels 0 points None s1) as [p' e' v'].
  cbn [post emitted value self app] in *.
  split; [rewrite Hself; reflexivity|].
  exists [CallLiteralEval (coordinates_positive a);
          CallLiteralEval (point_labels a)], e'.
  split; [reflexivity|]. split; [repeat constructor; eauto|].
  exists k. auto.
Qed.

Lemma prompt_for_is_prompt (r : ref) (points : list (pyval F))
    (labels : list Z) (i : nat) (c : call F) :
  prompt_for r points labels i = Ok c -> is_prompt c = true.
Proof.
  unfold prompt_for.
  destruct (list_index points i) as [p|]; cbn [rbind]; [|discriminate].
  destruct (int_seq p) as [pt|]; cbn [rbind]; [|discriminate].
  destruct (list_index labels i) as [l|]; cbn [rbind]; [|discriminate].
  now intros [= <-].
Qed.

Lemma prompts_as_parsed_prompts (a : inputs F) (r : ref) (ok : bool)
    (prompts : list (call F)) :
  prompts_as_parsed a r ok prompts ->
  Forall (fun c => is_prompt c = true) prompts.
Proof.
  unfold prompts_as_parsed.
  destruct (parsed_points a) as [points|]; [|now intros [-> _]].
  destruct (parsed_labels a) as [labels|]; [|now intros [-> _]].
  intros (k & _ & Hmap & _).
  revert Hmap. generalize (seq 0 k) as idxs.
  induction prompts as [|c prompts IH]; intros [|i idxs] Hmap;
    try discriminate; constructor.
  - injection Hmap as Hc _. symmetry in Hc.
    now apply prompt_for_is_prompt in Hc.
  - injection Hmap as _ Hrest. now apply (IH idxs).
Qed.


Lemma prompts_as_parsed_weaken (a : inputs F) (r : ref) (ok ok' : bool)
    (prompts : list (call F)) :
  (ok' = true -> ok = true) ->
  prompts_as_parsed a r ok prompts -> prompts_as_parsed a r ok' prompts.
Proof.
  unfold prompts_as_parsed. intros Himp.
  destruct (parsed_points a); [|].
  2:{ intros [-> Hf]. split; [reflexivity|].
      destruct ok'; [rewrite Himp in Hf by reflexivity; discriminate|
                     reflexivity]. }
  destruct (parsed_labels a); [|].
  2:{ intros [-> Hf]. split; [reflexivity|].
      destruct ok'; [rewrite Himp in Hf by reflexivity; discriminate|
                     reflexivity]. }
  intros (k & Hk & Hmap & Hok). exists k. auto.
Qed.

(** [process_frame] makes the calls of [obtain_logits] and no other; when
    it returns, the frame was rendered and appended to both lists. *)
Lemma process_frame_calls (a : inputs F) (frame : image F) (idx : nat)
    (acc : buffers F) (s : store M) :
  let o := process_frame a frame idx acc s in
  let q := obtain_logits a frame s in
  emitted o = emitted q /\ post o = post q /\
  (succeeded (value o) = true ->
   exists out r,
     value q = Ok out /\ render a frame out = Ok r /\
     value o = Ok (fst acc ++ [fst r], snd acc ++ [snd r])).
Proof.
  cbn zeta. unfold process_frame. run_prog.
  destruct (obtain_logits a frame s) as [p e [out|ex]];
    cbn [post emitted value].
  2:{ repeat split; auto. discriminate. }
  destruct (render a frame out) as [r|ex] eqn:Hr; cbn [post emitted value].
  - rewrite !app_nil_r. repeat split; auto. intros _. exists out, r. auto.
  - rewrite !app_nil_r. repeat split; auto. discriminate.
Qed.

(** From an initialised node, a run of frames is a run of [track] calls,
    one per frame, cut short only by an exception. *)
Lemma process_frames_tracking (a : inputs F) (r : ref) (images : list (image F)) :
  forall (idx : nat) (acc : buffers F) (s : store M),
  if_init (self s) = true -> predictor (self s) = Some r ->
  let o := process_frames a images idx acc s in
  self (post o) = self s /\
  exists n, n <= length images /\
    emitted o = map (CallTrack r) (firstn n images) /\
    (succeeded (value o) = true -> n = length images).
Proof.
  induction images as [|img rest IH]; intros idx acc s Hinit Hpred.
  - cbn. split; [reflexivity|]. exists 0. auto.
  - cbn zeta. cbn [process_frames]. run_prog.
    destruct (process_frame_calls a img idx acc s) as (He & Hp & _).
    destruct (obtain_logits_tracking a img s Hinit Hpred) as (Ht & Hs).
    rewrite <- He in Ht. rewrite <- Hp in Hs. clear He Hp.
    destruct (process_frame a img idx acc s) as [p e [acc'|ex]];
      cbn [post emitted value] in *; subst e.
    + rewrite <- Hs in Hinit, Hpred.
      destruct (IH (S idx) acc' p Hinit Hpred) as (Hself & n & Hn & Hem & Hok).
      destruct (process_frames a rest (S idx) acc' p) as [p' e' v'].
      cbn [post emitted value app] in *.
      split; [congruence|]. exists (S n). cbn [length firstn map].
      split; [lia|]. split; [now rewrite Hem|].
      intros Hv. f_equal. now apply Hok.
    + split; [exact Hs|]. exists 1. cbn [length firstn map].
      split; [lia|]. split; [now destruct rest|discriminate].
Qed.

(** A run of frames that starts on an uninitialised node: the first
    frame initialises, the rest are tracked. *)
Lemma process_frames_first (a : inputs F) (r : ref) (frame : image F)
    (rest : list (image F)) (idx : nat) (acc : buffers F) (s : store M) :
  if_init (self s) = false -> predictor (self s) = Some r ->
  let o := process_frames a (frame :: rest) idx acc s in
  (emitted o = [CallLoadFirstFrame r frame] /\ self (post o) = self s /\
   succeeded (value o) = false)
  \/
  (self (post o) = Node (Some r) true /\
   exists lits prompts n,
     emitted o = CallLoadFirstFrame r frame
                 :: lits ++ prompts ++ map (CallTrack r) (firstn n rest) /\
     Forall (fun c => exists x, c = CallLiteralEval x) lits /\
     prompts_as_parsed a r (succeeded (value o)) prompts /\
     n <= length rest /\
     (succeeded (value o) = true -> n = length rest)).
Proof.
  intros Hinit Hpred. cbn zeta. cbn [process_frames]. run_prog.
  destruct (process_frame_calls a frame idx acc s) as (He & Hp & Hv).
  destruct (obtain_logits_first a frame s Hinit Hpred)
    as [(Hem & Hself & Hfail) | (Hself & lits & prompts & Hem & Hlits & Hpr)].
  - left. rewrite <- He in Hem. rewrite <- Hp in Hself.
    destruct (process_frame a frame idx acc s) as [p e [acc'|ex]];
      cbn [post emitted value succeeded] in *.
    + destruct (Hv eq_refl) as (out & r0 & Hq & _).
      rewrite Hq in Hfail. discriminate.
    + auto.
  - right. rewrite <- He in Hem. rewrite <- Hp in Hself.
    destruct (process_frame a frame idx acc s) as [p e [acc'|ex]];
      cbn [post emitted value succeeded] in *.
    + assert (Hi : if_init (self p) = true) by now rewrite Hself.
      assert (Hq : predictor (self p) = Some r) by now rewrite Hself.
      destruct (process_frames_tracking a rest (S idx) acc' p Hi Hq)
        as (Hs' & n & Hn & Hem' & Hok).
      destruct (process_frames a rest (S idx) acc' p) as [p' e' v'].
      cbn [post emitted value] in *.
      split; [congruence|]. exists lits, prompts, n.
      split; [rewrite Hem, Hem'; cbn [app]; now rewrite <- app_assoc|].
      split; [exact Hlits|]. split; [|auto].
      destruct (Hv eq_refl) as (out & r0 & Hvq & _).
      rewrite Hvq in Hpr. cbn [succeeded] in Hpr.
      eapply prompts_as_parsed_weaken; [|exact Hpr]. auto.
    + split; [exact Hself|]. exists lits, prompts, 0.
      cbn [firstn map]. rewrite app_nil_r.
      split; [exact Hem|]. split; [exact Hlits|].
      split; [|split; [lia|discriminate]].
      eapply prompts_as_parsed_weaken; [|exact Hpr]. discriminate.
Qed.

Lemma process_frames_predictor (a : inputs F) (r : ref)
    (images : list (image F)) (idx : nat) (acc : buffers F) (s : store M) :
  predictor (self s) = Some r ->
  predictor (self (post (process_frames a images idx acc s))) = Some r.
Proof.
  intros Hp. destruct (if_init (self s)) eqn:Hi.
  - destruct (process_frames_tracking a images idx acc s Hi Hp) as (-> & _).
    exact Hp.
  - destruct images as [|frame rest]; [exact Hp|].
    destruct (process_frames_first a frame rest idx acc s Hi Hp)
      as [(_ & -> & _) | (-> & _)]; [exact Hp|reflexivity].
Qed.

Lemma adopt_predictor_self (a : inputs F) (s : store M) (hp : ref -> M) :
  self (adopt_predictor (sm_model (sam2_model a)) (Store (self s) hp))
  = Node (Some (effective_predictor a s)) (if_init (self s)).
Proof.
  unfold adopt_predictor, effective_predictor. cbn [self].
  destruct (self s) as [[p|] i]; reflexivity.
Qed.

(** [segment_images] is: move the network to the device, adopt it as
    predictor if there is none yet, process the frames, stack. *)
Lemma segment_images_cases (a : inputs F) (images : list (image F))
    (s : store M) :
  let model := sm_model (sam2_model a) in
  (exists hp e,
     segment_images a images s
     = Outcome (Store (self s) hp) [CallTo model "cuda"] (Raise e))
  \/
  (exists hp,
     let q := process_frames a images 0 ([], [])
                (adopt_predictor model (Store (self s) hp)) in
     segment_images a images s
     = Outcome (post q) (CallTo model "cuda" :: emitted q)
         (rbind (value q) (fun lists =>
          rbind (torch_stack (snd lists)) (fun stacked_masks =>
          rbind (torch_stack (fst lists)) (fun stacked_frames =>
            Ok (stacked_frames, stacked_masks)))))).
Proof.
  cbn zeta. unfold segment_images. run_prog.
  step_invoke hp res. destruct res as [[]|e]; [right|left; eauto].
  exists hp.
  destruct (process_frames a images 0 ([], []) _) as [p e [lists|ex]];
    cbn [post emitted value rbind app]; [|reflexivity].
  destruct (torch_stack (snd lists)) as [sm|ex]; cbn [rbind];
    [|now rewrite app_nil_r].
  destruct (torch_stack (fst lists)) as [sf|ex]; cbn [rbind];
    now rewrite !app_nil_r.
Qed.

Lemma stacked_ok_frames_ok {A} (v : result (buffers F))
    (k : buffers F -> result A) :
  succeeded (rbind v k) = true -> succeeded v = true.
Proof. destruct v; [reflexivity|discriminate]. Qed.

Lemma literal_is_seeding (lits : list (call F)) :
  Forall (fun c => exists x, c = CallLiteralEval x) lits ->
  forallb is_seeding lits = true /\ filter is_prompt lits = [].
Proof.
  induction 1 as [|c lits [x ->] _ [IH1 IH2]]; cbn; auto.
Qed.

Lemma prompts_are_seeding (prompts : list (call F)) :
  Forall (fun c => is_prompt c = true) prompts ->
  forallb is_seeding prompts = true /\ filter is_prompt prompts = prompts.
Proof.
  induction 1 as [|c prompts Hc _ [IH1 IH2]]; cbn; auto.
  rewrite Hc, IH2. destruct c; try discriminate. cbn. auto.
Qed.

Lemma tracks_are_not_prompts (r : ref) (l : list (image F)) :
  filter is_prompt (map (CallTrack r) l) = [] /\
  forallb (is_tracking r) (map (CallTrack r) l) = true.
Proof.
  induction l as [|f l [IH1 IH2]]; cbn; auto.
  rewrite Nat.eqb_refl. auto.
Qed.

(** C1.  Within one execution of [segment_images], after the network
    is moved to the device: a node that is already initialised handles
    every frame by exactly one [track(frame)] on its predictor and stays
    initialised; a node that is not handles the first frame by
    [load_first_frame(frame)] followed by prompt seeding only (the two
    parses and the prompts), and every later frame by exactly one
    [track(frame)].  The initialisation branch is taken at most once, and
    only an exception cuts the sequence short. *)
Theorem segment_images_state_machine (a : inputs F) (images : list (image F))
    (s : store M) :
  let o := segment_images a images s in
  let r := effective_predictor a s in
  exists evs,
    emitted o = CallTo (sm_model (sam2_model a)) "cuda" :: evs /\
    (if_init (self s) = true ->
       if_init (self (post o)) = true /\
       exists n, n <= length images /\
         evs = map (CallTrack r) (firstn n images) /\
         (succeeded (value o) = true -> n = length images)) /\
    (if_init (self s) = false ->
       (evs = [] /\ succeeded (value o) = false) \/
       exists frame rest seed n,
         images = frame :: rest /\
         evs = CallLoadFirstFrame r frame
               :: seed ++ map (CallTrack r) (firstn n rest) /\
         forallb is_seeding seed = true /\
         n <= length rest /\
         (succeeded (value o) = true -> n = length rest) /\
         (if_init (self (post o)) = true \/
          (seed = [] /\ n = 0 /\ succeeded (value o) = false))).
Proof.
  cbn zeta.
  destruct (segment_images_cases a images s)
    as [(hp & e & ->) | (hp & ->)]; cbn [post emitted value self].
  - exists []. split; [reflexivity|]. split.
    + intros Hi. split; [exact Hi|]. exists 0. cbn.
      repeat split; [lia | discriminate].
    + intros _. left. auto.
  - pose proof (adopt_predictor_self a s hp) as Hs2.
    set (s2 := adopt_predictor _ _) in *.
    exists (emitted (process_frames a images 0 ([], []) s2)).
    split; [reflexivity|]. split.
    + intros Hi.
      assert (Hi2 : if_init (self s2) = true) by now rewrite Hs2.
      assert (Hp2 : predictor (self s2) = Some (effective_predictor a s))
        by now rewrite Hs2.
      destruct (process_frames_tracking a images 0 ([], []) s2 Hi2 Hp2)
        as (Hself & n & Hn & Hem & Hok).
      split; [now rewrite Hself|]. exists n.
      repeat split; auto. intros Hv. apply Hok.
      eapply stacked_ok_frames_ok, Hv.
    + intros Hi.
      assert (Hi2 : if_init (self s2) = false) by now rewrite Hs2.
      assert (Hp2 : predictor (self s2) = Some (effective_predictor a s))
        by now rewrite Hs2.
      destruct images as [|frame rest].
      { left. cbn. auto. }
      right. exists frame, rest.
      destruct (process_frames_first a frame rest 0 ([], []) s2 Hi2 Hp2)
        as [(Hem & Hself & Hfail)
           | (Hself & lits & prompts & n & Hem & Hlits & Hpr & Hn & Hok)].
      * exists [], 0. cbn [app firstn map forallb].
        repeat split; auto; try lia.
        -- intros Hv. apply stacked_ok_frames_ok in Hv. congruence.
        -- right. repeat split; auto.
           destruct (value (process_frames a (frame :: rest) 0 ([], []) s2));
             [discriminate|reflexivity].
      * exists (lits ++ prompts), n.
        split; [reflexivity|].
        split; [now rewrite Hem, <- app_assoc|].
        split.
        { rewrite forallb_app.
          destruct (literal_is_seeding Hlits) as [-> _].
          apply prompts_as_parsed_prompts in Hpr.
          destruct (prompts_are_seeding Hpr) as [-> _]. reflexivity. }
        split; [exact Hn|]. split.
        { intros Hv. apply Hok. eapply stacked_ok_frames_ok, Hv. }
        left. now rewrite Hself.
Qed.



(** *** The conversions of the code are Python's *)








(** *** Seeding runs to the end when nothing on its way raises *)




(** [segment_images], step by step. *)
Lemma segment_images_run (a : inputs F) (images : list (image F))
    (s : store M) :
  let model := sm_model (sam2_model a) in
  let moved := to_device (heap s model) "cuda" in
  let s1 := Store (self s)
              (fun r' => if r' =? model then fst moved else heap s r') in
  segment_images a images s
  = match snd moved with
    | Raise e => Outcome s1 [CallTo model "cuda"] (Raise e)
    | Ok _ =>
        let q := process_frames a images 0 ([], [])
                   (adopt_predictor model s1) in
        Outcome (post q) (CallTo model "cuda" :: emitted q)
          (rbind (value q) (fun lists =>
           rbind (torch_stack (snd lists)) (fun stacked_masks =>
           rbind (torch_stack (fst lists)) (fun stacked_frames =>
             Ok (stacked_frames, stacked_masks)))))
    end.
Proof.
  cbn zeta. unfold segment_images. run_prog. rewrite invoke_run.
  destruct (snd (to_device (heap s (sm_model (sam2_model a))) "cuda"))
    as [[]|e]; cbn [post emitted value app]; [|reflexivity].
  destruct (process_frames a images 0 ([], []) _) as [p e [lists|ex]];
    cbn [post emitted value rbind app]; [|reflexivity].
  destruct (torch_stack (snd lists)) as [sm|ex]; cbn [rbind];
    [|now rewrite app_nil_r].
  destruct (torch_stack (fst lists)) as [sf|ex]; cbn [rbind];
    now rewrite !app_nil_r.
Qed.








(** *** Across executions *)

Lemma segment_images_initialized (a : inputs F) (images : list (image F))
    (s : store M) (r : ref) :
  if_init (self s) = true -> predictor (self s) = Some r ->
  let o := segment_images a images s in
  self (post o) = self s /\ forallb (is_tracking r) (emitted o) = true.
Proof.
  intros Hi Hp. cbn zeta.
  destruct (segment_images_cases a images s)
    as [(hp & e & ->) | (hp & ->)]; cbn [post emitted value self].
  - auto.
  - pose proof (adopt_predictor_self a s hp) as Hs2.
    set (s2 := adopt_predictor _ _) in *.
    assert (He : effective_predictor a s = r)
      by (unfold effective_predictor; now rewrite Hp).
    rewrite He, Hi in Hs2.
    assert (Hs : self s2 = self s)
      by (rewrite Hs2; destruct (self s); cbn in *; congruence).
    assert (Hi2 : if_init (self s2) = true) by now rewrite Hs2.
    assert (Hp2 : predictor (self s2) = Some r) by now rewrite Hs2.
    destruct (process_frames_tracking a images 0 ([], []) s2 Hi2 Hp2)
      as (Hself & n & _ & -> & _).
    split; [congruence|]. cbn [forallb is_tracking].
    apply tracks_are_not_prompts.
Qed.

Lemma segment_images_has_predictor (a : inputs F) (images : list (image F))
    (s : store M) :
  has_predictor s -> has_predictor (post (segment_images a images s)).
Proof.
  intros Hinv.
  destruct (segment_images_cases a images s)
    as [(hp & e & ->) | (hp & ->)]; cbn [post emitted value self].
  - exact Hinv.
  - pose proof (adopt_predictor_self a s hp) as Hs2.
    set (s2 := adopt_predictor _ _) in *.
    assert (Hp2 : predictor (self s2) = Some (effective_predictor a s))
      by now rewrite Hs2.
    intros _. exists (effective_predictor a s).
    destruct (if_init (self s2)) eqn:Hi2.
    + destruct (process_frames_tracking a images 0 ([], []) s2 Hi2 Hp2)
        as (-> & _). exact Hp2.
    + destruct images as [|frame rest]; [exact Hp2|].
      destruct (process_frames_first a frame rest 0 ([], []) s2 Hi2 Hp2)
        as [(_ & -> & _) | (-> & _)]; [exact Hp2|reflexivity].
Qed.

Lemma run_calls_has_predictor (cs : list (inputs F * list (image F))) :
  forall s : store M, has_predictor s -> has_predictor (fst (run_calls cs s)).
Proof.
  induction cs as [|[a images] cs IH]; intros s Hinv; [exact Hinv|].
  cbn [run_calls].
  specialize (IH _ (segment_images_has_predictor a images Hinv)).
  destruct (run_calls cs (post (segment_images a images s))). exact IH.
Qed.

Lemma run_calls_initialized (r : ref) (cs : list (inputs F * list (image F))) :
  forall s : store M,
  if_init (self s) = true -> predictor (self s) = Some r ->
  self (fst (run_calls cs s)) = self s /\
  forallb (is_tracking r) (snd (run_calls cs s)) = true.
Proof.
  induction cs as [|[a images] cs IH]; intros s Hi Hp; [now cbn|].
  cbn [run_calls].
  destruct (segment_images_initialized a images s Hi Hp) as (Hs & Hcalls).
  rewrite <- Hs in Hi, Hp. destruct (IH _ Hi Hp) as (Hs' & Hcalls').
  destruct (run_calls cs (post (segment_images a images s))) as [s' later].
  cbn [fst snd] in *. split; [congruence|].
  now rewrite forallb_app, Hcalls, Hcalls'.
Qed.

(** C9.  [predictor] and [if_init] are carried from one execution of
    the node to the next and never reset.  Take a fresh instance, run any
    executions on it; if that left it initialised, then it holds a
    predictor [r], and whatever executions follow leave both fields as
    they are and make no call other than moving a network to the device
    and [r.track]: no [load_first_frame], no [ast.literal_eval] of the
    coordinate or label inputs, no [add_new_prompt]. *)
Theorem predictor_persists (h0 : ref -> M)
    (before later : list (inputs F * list (image F))) :
  let s1 := fst (run_calls before (Store __init__ h0)) in
  if_init (self s1) = true ->
  exists r,
    predictor (self s1) = Some r /\
    self (fst (run_calls later s1)) = self s1 /\
    forallb (is_tracking r) (snd (run_calls later s1)) = true.
Proof.
  cbn zeta. intros Hi.
  assert (Hinv : has_predictor (Store __init__ h0)) by (intros H'; discriminate).
  destruct (run_calls_has_predictor before Hinv Hi) as (r & Hr).
  exists r. split; [exact Hr|]. now apply run_calls_initialized.
Qed.

(** *** The returned tensors *)

(** Line 260 passes [_process_mask] the 2-D mask of the frame, so that
    [mask[i, 0]] is a single number; line 186 then hands that number to
    [cv2.resize]. *)
Lemma process_mask_2d_stops :
  (forall (z : Z) (w h : nat), succeeded (cv2_resize (Scalar z) w h) = false) ->
  forall (mask : plane Z) (shape : nat * nat * nat),
  0 < length mask ->
  succeeded (_process_mask (Mask2D mask) shape) = false.
Proof.
  intros Hresize mask [[fh fw] fc] Hn. unfold _process_mask. cbn [mask_len].
  destruct mask as [|row mask]; [cbn in Hn; lia|].
  cbn [length Nat.eqb seq blend_objects].
  unfold current_mask_of, list_index. cbn [nth_error rbind].
  destruct row as [|z row]; cbn [nth_error rbind]; [reflexivity|].
  cbn [fit_to_frame].
  specialize (Hresize (if (0 <? z)%Z then 255%Z else 0%Z) fw fh).
  destruct (cv2_resize _ fw fh); [discriminate|reflexivity].
Qed.

(** Line 267 adds a numpy array to a tensor. *)
Lemma render_stops :
  (forall (t : image F) (n : ndarray F), succeeded (torch_add_np t n) = false) ->
  forall (a : inputs F) (frame : image F) (out : option (logits F)),
  succeeded (render a frame out) = false.
Proof.
  intros Hadd a frame out. unfold render.
  destruct (frame_artifacts a frame out) as [[mask colored]|]; cbn [rbind];
    [|reflexivity].
  unfold automasked_frame_of.
  specialize (Hadd (scale (flit 7 10) frame) (scale_np (flit 3 10) colored)).
  destruct (torch_add_np _ _); [discriminate|reflexivity].
Qed.

Lemma process_frames_stop (a : inputs F) (frame : image F)
    (rest : list (image F)) (idx : nat) (acc : buffers F) (s : store M) :
  (forall frame out, succeeded (render a frame out) = false) ->
  succeeded (value (process_frames a (frame :: rest) idx acc s)) = false.
Proof.
  intros Hrender. cbn [process_frames]. unfold bind.
  destruct (process_frame_calls a frame idx acc s) as (_ & _ & Hv).
  destruct (process_frame a frame idx acc s) as [p e [acc'|ex]];
    cbn [post emitted value succeeded] in *; [|reflexivity].
  destruct (Hv eq_refl) as (out & r & _ & Hr & _).
  specialize (Hrender frame out). rewrite Hr in Hrender. discriminate.
Qed.

(** C6, what the code does instead.  The two outputs are set up as the
    claim says: line 267 adds [frame * 0.7] and [automask_colored * 0.3],
    line 271 adds [frame * 0.1] and [mask * 0.9].  But the first addition
    is [torch.add] of a tensor and a numpy array, and before it line 186
    gives [cv2.resize] a single number, because [_process_mask] is passed
    the 2-D mask.  Both libraries refuse such an argument.  So no frame is
    ever rendered, and [segment_images] never returns: not for a non-empty
    sequence, and not for the empty one. *)
Theorem segment_images_never_returns (a : inputs F) (images : list (image F))
    (s : store M) :
  (forall (z : Z) (w h : nat), succeeded (cv2_resize (Scalar z) w h) = false) ->
  (forall (t : image F) (n : ndarray F), succeeded (torch_add_np t n) = false) ->
  (forall frame colored,
     automasked_frame_of frame colored
     = torch_add_np
         (map (map (map (fun v => fmul v (flit 7 10)))) frame)
         match colored with
         | Gray g => Gray (map (map (fun z => fmul (of_Z z) (flit 3 10))) g)
         | Color g =>
             Color (map (map (map (fun z => fmul (of_Z z) (flit 3 10)))) g)
         end) /\
  (forall frame mask,
     constructed_mask_of frame mask
     = torch_add
         (map (map (map (fun v => fmul v (flit 1 10)))) frame)
         (map (map (fun z => fmul (of_Z z) (flit 9 10))) mask)) /\
  (forall mask shape,
     0 < length mask ->
     succeeded (_process_mask (Mask2D mask) shape) = false) /\
  (forall frame out, succeeded (render a frame out) = false) /\
  succeeded (value (segment_images a images s)) = false.
Proof.
  intros Hresize Hadd.
  split; [intros frame [g|g]; reflexivity|].
  split; [reflexivity|].
  split; [now apply process_mask_2d_stops|].
  pose proof (render_stops Hadd a) as Hrender.
  split; [exact Hrender|].
  rewrite segment_images_run. cbn zeta.
  destruct (snd (to_device _ _)) as [[]|e]; cbn [value]; [|reflexivity].
  destruct images as [|frame rest]; [reflexivity|].
  match goal with
  | |- context [process_frames a (frame :: rest) 0 ([], []) ?s2] =>
      pose proof (process_frames_stop a frame rest 0 ([], []) s2 Hrender)
        as Hq;
      destruct (value (process_frames a (frame :: rest) 0 ([], []) s2))
  end; [discriminate|reflexivity].
Qed.
End StateMachine.

(** ** More on the loader *)

Ltac unfold_prog :=
  unfold bind, get, modify, emit, lift, ret, raise;
  cbn [post emitted value app].

(** Follow every path of a computation: split on each test and on each
    fallible step. *)
Ltac each_path :=
  repeat (cbn [post emitted value app fst snd] in *;
          match goal with
          | |- context [if ?b then _ else _] => destruct b eqn:?
          | |- context [match ?x with Ok _ => _ | Raise _ => _ end] =>
              destruct x eqn:?
          | |- context [match ?x with nil => _ | cons _ _ => _ end] =>
              destruct x eqn:?
          | |- context [match ?x with pair _ _ => _ end] => destruct x eqn:?
          | |- context [match ?x with Some _ => _ | None => _ end] =>
              destruct x eqn:?
          end).

Section LoaderMore.
Context {Net Cfg Sd : Type} `{Host Net Cfg Sd}.

Lemma dict_get_raises {A} (d : list (string * A)) (k : string) (e : exn) :
  dict_get d k = Raise e -> e = KeyError.
Proof.
  induction d as [|[k' v] d IH]; cbn; [now intros [= <-]|].
  destruct (String.eqb k' k); [discriminate|exact IH].
Qed.

Lemma path_exists_written (p : string) (chunks : list string) (w : world) :
  path_exists (write_chunks p chunks w) p = true.
Proof.
  unfold path_exists, write_chunks. cbn. now rewrite String.eqb_refl.
Qed.

Lemma path_exists_found (w : world) (p : string) :
  path_exists w p = true -> exists body, dict_get (files w) p = Ok body.
Proof.
  unfold path_exists. induction (files w) as [|[k v] l IH]; cbn;
    [discriminate|].
  destruct (String.eqb k p); cbn; eauto.
Qed.

(** X1.  What a successful [loadmodel] returns: the network sits on
    "cuda" when CUDA is available and on "cpu" otherwise, whatever the
    [device] input asked for (line 123 overwrites it); the dtype is the one
    the precision names; segmentor and version are passed through. *)
Theorem loadmodel_returns (model segmentor device precision : string)
    (w : world) (d : sam2_model_dict) :
  value (loadmodel model segmentor device precision w) = Ok d ->
  d_device d = (if cuda_is_available then "cuda" else "cpu")%string /\
  dtype_of precision = Ok (d_dtype d) /\
  d_segmentor d = segmentor /\
  d_version d = "2.0"%string.
Proof.
  unfold loadmodel, _load_checkpoint, dtype_of. unfold_prog.
  each_path; try discriminate.
  all: intros [= <-]; cbn; auto.
Qed.

(** X2.  A device other than "cuda", "cpu" and "mps" is a KeyError, and
    it is raised before anything is printed, downloaded or switched. *)
Theorem loadmodel_unknown_device (model segmentor device precision : string)
    (w : world) :
  device <> "cuda"%string -> device <> "cpu"%string ->
  device <> "mps"%string ->
  loadmodel model segmentor device precision w = Outcome w [] (Raise KeyError).
Proof.
  intros Hcuda Hcpu Hmps.
  assert (E1 : String.eqb device "cpu" = false) by now apply String.eqb_neq.
  assert (E2 : String.eqb device "cuda" = false) by now apply String.eqb_neq.
  assert (E3 : dict_get [("cuda", "cuda"); ("cpu", "cpu"); ("mps", "mps")]%string
                 device = Raise KeyError).
  { cbn [dict_get]. rewrite !(String.eqb_sym _ device), E1, E2.
    apply String.eqb_neq in Hmps. now rewrite Hmps. }
  unfold loadmodel. unfold_prog. rewrite E1, E2, andb_false_r.
  cbn [post emitted value app]. rewrite E3.
  destruct (dict_get _ precision) as [dt|e] eqn:Hd; cbn [post emitted value app];
    [reflexivity|].
  now rewrite (dict_get_raises _ _ Hd).
Qed.

(** A checkpoint that is already on disk is neither fetched nor
    rewritten, on any path through [loadmodel]. *)
Lemma loadmodel_keeps_present_file (model segmentor device precision : string)
    (w : world) :
  path_exists w (model_path_of model) = true ->
  let o := loadmodel model segmentor device precision w in
  files (post o) = files w /\
  forallb (fun e => negb (is_download e)) (emitted o) = true.
Proof.
  intros Hp. cbn zeta.
  assert (Hp' : path_exists (enable_tf32 w) (model_path_of model) = true)
    by exact Hp.
  unfold model_path_of in Hp, Hp'.
  unfold loadmodel, _load_checkpoint. unfold_prog.
  each_path;
    repeat match goal with
           | E : negb _ = true |- _ => apply negb_true_iff in E
           end;
    try congruence; split; reflexivity.
Qed.

(** A successful [loadmodel] leaves the checkpoint on disk. *)
Lemma loadmodel_leaves_file (model segmentor device precision : string)
    (w : world) (d : sam2_model_dict) :
  value (loadmodel model segmentor device precision w) = Ok d ->
  path_exists (post (loadmodel model segmentor device precision w))
    (model_path_of model) = true.
Proof.
  unfold model_path_of.
  unfold loadmodel, _load_checkpoint. unfold_prog.
  each_path; try discriminate; intros _;
    repeat match goal with
           | E : negb _ = true |- _ => apply negb_true_iff in E
           | E : negb _ = false |- _ => apply negb_false_iff in E
           end;
    first [ assumption | apply path_exists_written ].
Qed.

(** X3.  [loadmodel] fetches at most from the one hard-wired URL, and
    only when the checkpoint file is not there; when the file is there the
    files are left exactly as they were. *)
Theorem loadmodel_download_only_if_absent
    (model segmentor device precision : string) (w : world) :
  let o := loadmodel model segmentor device precision w in
  (forall u, In (HttpGet u) (emitted o) ->
     u = url /\ path_exists w (model_path_of model) = false) /\
  (path_exists w (model_path_of model) = true -> files (post o) = files w).
Proof.
  cbn zeta. split.
  - assert (Hp : path_exists (enable_tf32 w) (model_path_of model)
                 = path_exists w (model_path_of model)) by reflexivity.
    unfold model_path_of in *.
    unfold loadmodel, _load_checkpoint. unfold_prog.
    each_path;
      repeat match goal with
             | E : negb _ = true |- _ => apply negb_true_iff in E
             end;
      intros u Hu; cbn [In emitted] in Hu;
      repeat match goal with
             | D : _ \/ _ |- _ => destruct D as [D|D]
             end;
      try discriminate; try contradiction;
      injection Hu as <-; (split; [reflexivity | congruence]).
  - intros Hp. now apply loadmodel_keeps_present_file.
Qed.

(** X4.  Loading composes: once a load has succeeded, a later load of
    the same checkpoint name, with whatever other inputs, finds the file and
    neither fetches nor rewrites it. *)
Theorem loadmodel_second_run_reuses_file
    (model segmentor device precision : string) (w : world)
    (d : sam2_model_dict) (segmentor' device' precision' : string) :
  value (loadmodel model segmentor device precision w) = Ok d ->
  let w1 := post (loadmodel model segmentor device precision w) in
  let o := loadmodel model segmentor' device' precision' w1 in
  files (post o) = files w1 /\
  forallb (fun e => negb (is_download e)) (emitted o) = true.
Proof.
  intros Hok. cbn zeta.
  apply loadmodel_keeps_present_file.
  exact (loadmodel_leaves_file _ _ _ _ _ Hok).
Qed.

(** X5.  The TF32 switches are only ever turned on, and only for device
    "cuda" on a GPU of compute capability 8 or more; for any other device
    they are left as they were, on every path. *)
Theorem loadmodel_tf32 (model segmentor device precision : string) (w : world) :
  let o := loadmodel model segmentor device precision w in
  (allow_tf32_matmul (post o) = allow_tf32_matmul w /\
   allow_tf32_cudnn (post o) = allow_tf32_cudnn w)
  \/
  (device = "cuda"%string /\
   (exists major, cuda_device_major = Ok major /\ 8 <= major) /\
   allow_tf32_matmul (post o) = true /\ allow_tf32_cudnn (post o) = true).
Proof.
  cbn zeta. unfold loadmodel, _load_checkpoint. unfold_prog.
  each_path;
    try (left; split; reflexivity);
    right;
    repeat match goal with
           | E : String.eqb _ _ = true |- _ => apply String.eqb_eq in E
           | E : (_ <=? _) = true |- _ => apply Nat.leb_le in E
           end;
    repeat split; eauto.
Qed.

(** X6.  The checkpoint is loaded strictly: [loadmodel] returns a model
    only if [load_state_dict] reported no missing and no unexpected key,
    and the model returned is that network moved to the device and put in
    eval mode. *)
Theorem loadmodel_strict_checkpoint
    (model segmentor device precision : string) (w : world)
    (d : sam2_model_dict) :
  value (loadmodel model segmentor device precision w) = Ok d ->
  exists cfg net body sd net0 net1,
    instantiate cfg = Ok net /\
    dict_get (files (post (loadmodel model segmentor device precision w)))
      (model_path_of model) = Ok body /\
    torch_load body = Ok sd /\
    load_state_dict net sd = Ok (net0, ([], [])) /\
    net_to net0 (d_device d) = Ok net1 /\
    d_model d = net_eval net1.
Proof.
  unfold model_path_of.
  unfold loadmodel, _load_checkpoint. unfold_prog.
  each_path; try discriminate; intros [= <-]; cbn [d_device d_model];
    repeat match goal with
           | E : match ?x with Ok _ => _ | Raise _ => _ end = Ok _ |- _ =>
               destruct x eqn:?; [|discriminate]
           end;
    repeat match goal with
           | E : Ok _ = Ok _ |- _ => injection E as E; subst
           end;
    do 6 eexists; repeat split; eauto.
Qed.

(** Past validation, the first thing [loadmodel] does is print the
    checkpoint path. *)
Lemma loadmodel_reaches_path (model segmentor device precision : string)
    (w : world) :
  negb (String.eqb precision "fp32") && String.eqb device "cpu" = false ->
  (device = "cuda"%string -> exists major, cuda_device_major = Ok major) ->
  (exists dt, dtype_of precision = Ok dt) ->
  (exists dv, dict_get [("cuda", "cuda"); ("cpu", "cpu"); ("mps", "mps")]%string
                device = Ok dv) ->
  exists rest,
    emitted (loadmodel model segmentor device precision w)
    = Stdout ["model_path: "%string; model_path_of model] :: rest.
Proof.
  intros Hg Hcuda [dt Hdt] [dv Hdv]. unfold dtype_of in Hdt.
  unfold model_path_of.
  unfold loadmodel, _load_checkpoint. unfold_prog. rewrite Hg.
  each_path;
    repeat match goal with
           | E : String.eqb _ _ = true |- _ => apply String.eqb_eq in E
           end;
    try congruence;
    try (match goal with
         | E : device = "cuda"%string |- _ =>
             destruct (Hcuda E) as [major Hm]; congruence
         end);
    cbn [emitted]; eexists; reflexivity.
Qed.

(** X7.  Every device and precision that [INPUT_TYPES] offers passes
    validation, except "cpu" with a precision other than "fp32": when the
    CUDA capability query does not raise, [loadmodel] gets to printing the
    checkpoint path.  The default precision is one of the rejected ones on
    "cpu". *)
Theorem offered_inputs_pass_validation
    (model segmentor device precision : string) (w : world) :
  In device (it_device INPUT_TYPES) ->
  In precision (it_precision INPUT_TYPES) ->
  (device = "cpu"%string -> precision = "fp32"%string) ->
  (device = "cuda"%string -> exists major, cuda_device_major = Ok major) ->
  (exists rest,
     emitted (loadmodel model segmentor device precision w)
     = Stdout ["model_path: "%string; model_path_of model] :: rest) /\
  value (loadmodel model segmentor "cpu" (it_precision_default INPUT_TYPES) w)
  = Raise ValueError.
Proof.
  intros Hd Hp Hcpu Hcuda. split; [|reflexivity].
  apply loadmodel_reaches_path; [| exact Hcuda | |]; cbn in Hd, Hp;
    destruct Hd as [<-|[<-|[<-|[]]]]; destruct Hp as [<-|[<-|[<-|[]]]];
    try (specialize (Hcpu eq_refl); discriminate);
    try reflexivity; unfold dtype_of; cbn; eauto.
Qed.
(** Past validation with the checkpoint absent, [loadmodel] gets to the
    download: these are the ways out of lines 75-83. *)
Lemma loadmodel_download_outcomes (model segmentor device precision : string)
    (w : world) :
  In device (it_device INPUT_TYPES) ->
  In precision (it_precision INPUT_TYPES) ->
  (device = "cpu"%string -> precision = "fp32"%string) ->
  (device = "cuda"%string -> exists major, cuda_device_major = Ok major) ->
  path_exists w (model_path_of model) = false ->
  let o := loadmodel model segmentor device precision w in
  existsb is_download (emitted o) = true /\
  (forall e, open_wb (model_path_of model) = Raise e ->
     (exists reply, http_get url = Ok reply) ->
     value o = Raise e /\ files (post o) = files w) /\
  (forall chunks e, http_get url = Ok (chunks, Some e) ->
     open_wb (model_path_of model) = Ok tt ->
     value o = Raise e /\
     files (post o) = files (write_chunks (model_path_of model) chunks w)).
Proof.
  intros Hd Hp Hcpu Hcuda Habsent. cbn zeta.
  assert (Habsent' : path_exists (enable_tf32 w) (model_path_of model) = false)
    by exact Habsent.
  unfold model_path_of in *.
  cbn in Hd, Hp.
  destruct Hd as [<-|[<-|[<-|[]]]]; destruct Hp as [<-|[<-|[<-|[]]]];
    try (specialize (Hcpu eq_refl); discriminate);
    unfold loadmodel, _load_checkpoint; unfold_prog;
    cbn [String.eqb Ascii.eqb Bool.eqb negb andb dict_get];
    try (destruct (Hcuda eq_refl) as [major ->]);
    cbn [post emitted value app];
    repeat match goal with
           | |- context [if ?b then _ else _] =>
               match b with
               | context [path_exists] => fail 1
               | _ => destruct b
               end
           end;
    cbn [post emitted value app];
    rewrite ?Habsent, ?Habsent'; cbn [negb post emitted value app];
    (split; [|split]);
    try (intros e He [reply Hr]; rewrite Hr, He);
    try (intros chunks e Hr He; rewrite Hr, He);
    cbn [post emitted value app fst snd files write_chunks];
    each_path; auto.
Qed.

(** X19.  A download that breaks off is not cleaned up.  When the
    checkpoint is absent and the stream (or a write) fails after the file
    was opened, [loadmodel] raises that error and leaves on disk a file
    holding the chunks that had arrived.  Every later load of that name
    finds the file, does not fetch again, and reads the truncated file as
    the checkpoint. *)
Theorem loadmodel_broken_download_stays
    (model segmentor device precision : string) (w : world)
    (chunks : list string) (e : exn) :
  In device (it_device INPUT_TYPES) ->
  In precision (it_precision INPUT_TYPES) ->
  (device = "cpu"%string -> precision = "fp32"%string) ->
  (device = "cuda"%string -> exists major, cuda_device_major = Ok major) ->
  path_exists w (model_path_of model) = false ->
  http_get url = Ok (chunks, Some e) ->
  open_wb (model_path_of model) = Ok tt ->
  let o := loadmodel model segmentor device precision w in
  value o = Raise e /\
  dict_get (files (post o)) (model_path_of model)
  = Ok (String.concat "" (filter (fun c => negb (String.eqb c "")) chunks)) /\
  forall segmentor' device' precision',
    let o' := loadmodel model segmentor' device' precision' (post o) in
    files (post o') = files (post o) /\
    forallb (fun e => negb (is_download e)) (emitted o') = true.
Proof.
  intros Hd Hp Hcpu Hcuda Habsent Hget Hopen. cbn zeta.
  destruct (loadmodel_download_outcomes model segmentor w Hd Hp Hcpu Hcuda
              Habsent) as (_ & _ & Hbroken).
  destruct (Hbroken chunks e Hget Hopen) as (Hv & Hf).
  split; [exact Hv|]. split.
  - rewrite Hf. unfold write_chunks. cbn [files dict_get].
    now rewrite String.eqb_refl.
  - intros segmentor' device' precision'. cbn zeta.
    apply loadmodel_keeps_present_file.
    unfold path_exists. rewrite Hf. unfold write_chunks.
    cbn [files existsb fst]. now rewrite String.eqb_refl.
Qed.

(** X20.  When the checkpoint file cannot be created, the request has
    been made all the same, nothing is written, and the error of [open] is
    what [loadmodel] raises. *)
Theorem loadmodel_cannot_create_file
    (model segmentor device precision : string) (w : world)
    (reply : list string * option exn) (e : exn) :
  In device (it_device INPUT_TYPES) ->
  In precision (it_precision INPUT_TYPES) ->
  (device = "cpu"%string -> precision = "fp32"%string) ->
  (device = "cuda"%string -> exists major, cuda_device_major = Ok major) ->
  path_exists w (model_path_of model) = false ->
  http_get url = Ok reply ->
  open_wb (model_path_of model) = Raise e ->
  let o := loadmodel model segmentor device precision w in
  value o = Raise e /\
  files (post o) = files w /\
  existsb is_download (emitted o) = true.
Proof.
  intros Hd Hp Hcpu Hcuda Habsent Hget Hopen. cbn zeta.
  destruct (loadmodel_download_outcomes model segmentor w Hd Hp Hcpu Hcuda
              Habsent) as (Hfetch & Hcreate & _).
  destruct (Hcreate e Hopen (ex_intro _ reply Hget)) as (Hv & Hf).
  auto.
Qed.
End LoaderMore.

(** ** More on the segmentation node *)

Ltac open_invoke hp res :=
  match goal with
  | |- context [invoke ?r ?c ?f ?s] =>
      let E := fresh "E" in
      destruct (invoke_shape r c f s) as (hp & res & E);
      rewrite !E; clear E; cbn [post emitted value self heap]
  end.

Section SegmentationMore.
Context {F M : Type}.
Context `{FloatOps F} `{PyRuntime F} `{TensorLib F} `{Model F M}.

(** X8.  The point overlay never paints.  Whenever [overlay_points]
    returns, it returns the image it was given, and either [show_point] is
    off or the coordinate input is the empty string; with [show_point] on,
    the default [None] and every non-empty string raise. *)
Theorem overlay_never_paints (a : inputs F) (img img' : ndarray Z) :
  overlay_points a img = Ok img' ->
  img' = img /\
  (show_point a = false \/ coordinates_positive a = Some ""%string).
Proof.
  unfold overlay_points.
  destruct (show_point a); [|intros [= <-]; auto].
  destruct (coordinates_positive a) as [[|c rest]|]; cbn;
    [intros [= <-]; auto | discriminate | discriminate].
Qed.

Lemma predictor_kept (a : inputs F) (images : list (image F))
    (s : store M) :
  let o := segment_images a images s in
  (forall r, predictor (self s) = Some r -> predictor (self (post o)) = Some r) /\
  (predictor (self s) = None ->
     predictor (self (post o)) = None \/
     predictor (self (post o)) = Some (sm_model (sam2_model a))) /\
  (if_init (self s) = true -> if_init (self (post o)) = true).
Proof.
  cbn zeta.
  assert (Hmain :
    predictor (self (post (segment_images a images s))) = predictor (self s) /\
    if_init (self (post (segment_images a images s))) = if_init (self s)
    \/
    predictor (self (post (segment_images a images s)))
      = Some (effective_predictor a s) /\
    (if_init (self s) = true ->
     if_init (self (post (segment_images a images s))) = true)).
  { destruct (segment_images_cases a images s)
      as [(hp & e & ->) | (hp & ->)]; cbn [post emitted value self];
      [left; auto|right].
    pose proof (adopt_predictor_self a s hp) as Hs2.
    set (s2 := adopt_predictor _ _) in *.
    assert (Hp2 : predictor (self s2) = Some (effective_predictor a s))
      by now rewrite Hs2.
    destruct (if_init (self s)) eqn:Hi.
    - assert (Hi2 : if_init (self s2) = true) by now rewrite Hs2.
      destruct (process_frames_tracking a images 0 ([], []) s2 Hi2 Hp2)
        as (-> & _). auto.
    - assert (Hi2 : if_init (self s2) = false) by now rewrite Hs2.
      split; [|discriminate].
      destruct images as [|frame rest]; [exact Hp2|].
      destruct (process_frames_first a frame rest 0 ([], []) s2 Hi2 Hp2)
        as [(_ & -> & _) | (-> & _)]; [exact Hp2|reflexivity]. }
  unfold effective_predictor in Hmain.
  destruct Hmain as [[Hp Hi] | [Hp Hi]]; rewrite Hp.
  - rewrite Hi. repeat split; auto.
  - repeat split.
    + intros r Hr. now rewrite Hr.
    + intros Hn. rewrite Hn. auto.
    + exact Hi.
Qed.

(** X11.  A stored predictor is never replaced: whatever network a
    later execution is given, and whether or not the node is initialised,
    [self.predictor] stays the one stored first.  An empty slot is filled
    with the execution's own network when moving that network to the
    device returns, and stays empty when it raises.  [if_init] is never
    set back. *)
Theorem predictor_never_replaced (a : inputs F) (images : list (image F))
    (s : store M) :
  let o := segment_images a images s in
  (forall r, predictor (self s) = Some r -> predictor (self (post o)) = Some r) /\
  (predictor (self s) = None ->
     predictor (self (post o)) = None \/
     predictor (self (post o)) = Some (sm_model (sam2_model a))) /\
  (if_init (self s) = true -> if_init (self (post o)) = true) /\
  (predictor (self s) = None ->
     match snd (to_device (heap s (sm_model (sam2_model a))) "cuda") with
     | Ok _ => predictor (self (post o)) = Some (sm_model (sam2_model a))
     | Raise _ => predictor (self (post o)) = None
     end).
Proof.
  cbn zeta. destruct (predictor_kept a images s) as (Hkeep & Hfill & Hinit).
  split; [exact Hkeep|]. split; [exact Hfill|]. split; [exact Hinit|].
  intros Hn. rewrite segment_images_run. cbn zeta.
  destruct (snd (to_device _ _)) as [[]|e]; cbn [post self]; [|exact Hn].
  apply process_frames_predictor. unfold adopt_predictor. cbn [self].
  now rewrite Hn.
Qed.

(** X16.  An empty batch never returns: after moving the network to the
    device there is nothing to stack.  No frame is processed, so the node
    is not initialised by it, but the predictor slot is filled all the
    same. *)
Theorem segment_images_empty_batch (a : inputs F) (s : store M) :
  let o := segment_images a [] s in
  succeeded (value o) = false /\
  emitted o = [CallTo (sm_model (sam2_model a)) "cuda"] /\
  if_init (self (post o)) = if_init (self s) /\
  (snd (to_device (heap s (sm_model (sam2_model a))) "cuda") = Ok tt ->
   value o = Raise RuntimeError /\
   predictor (self (post o)) = Some (effective_predictor a s)).
Proof.
  cbn zeta. unfold segment_images, invoke. unfold_prog.
  destruct (to_device (heap s (sm_model (sam2_model a))) "cuda")
    as [m' [[]|e]]; cbn [post emitted value app process_frames snd fst];
    unfold_prog; cbn [torch_stack snd fst].
  - repeat split; auto.
    + unfold adopt_predictor. cbn [self].
      destruct (predictor (self s)); reflexivity.
    + unfold adopt_predictor, effective_predictor. cbn [self].
      destruct (predictor (self s)) eqn:Hp; cbn [post self predictor];
        [exact Hp|reflexivity].
  - repeat split; auto; cbn; try reflexivity; try discriminate.
Qed.

(** X13.  Two objects are painted in the same colour exactly when their
    indices agree modulo 5: the palette has five distinct colours and wraps
    around. *)
Theorem palette_wraps (i j : nat) (v : Z) :
  (0 < v)%Z ->
  (colored_pixel i v = colored_pixel j v <-> i mod 5 = j mod 5).
Proof.
  intros Hv. apply Z.ltb_lt in Hv. unfold colored_pixel. rewrite Hv.
  change (length colors) with 5.
  assert (Hi : i mod 5 < 5) by (apply Nat.mod_upper_bound; lia).
  assert (Hj : j mod 5 < 5) by (apply Nat.mod_upper_bound; lia).
  destruct (i mod 5) as [|[|[|[|[|k]]]]]; try lia;
    destruct (j mod 5) as [|[|[|[|[|k']]]]]; try lia;
    cbn; split; intros E; try reflexivity; try discriminate.
Qed.

(** X15.  Only the first object counts: the frame's mask, its colourised
    mask and both output images are computed from [out_mask_logits[0, 0]]
    alone, whatever the other objects and channels hold. *)
Theorem only_first_object_rendered (a : inputs F) (frame : image F)
    (l00 : plane F) (channels : list (plane F)) (others : logits F) :
  frame_artifacts a frame (Some ((l00 :: channels) :: others))
  = frame_artifacts a frame (Some [[l00]]) /\
  render a frame (Some ((l00 :: channels) :: others))
  = render a frame (Some [[l00]]).
Proof.
  assert (E : frame_artifacts a frame (Some ((l00 :: channels) :: others))
              = frame_artifacts a frame (Some [[l00]])).
  { unfold frame_artifacts. cbn [rbind].
    destruct (frame_shape frame) as [[fh fw] fc]. reflexivity. }
  split; [exact E|]. unfold render. now rewrite E.
Qed.

Lemma current_mask_of_2d (m m' : plane Z) (i : nat) :
  first_column_signs m = first_column_signs m' ->
  current_mask_of (Mask2D m) i = current_mask_of (Mask2D m') i.
Proof.
  unfold first_column_signs. intros E.
  apply (f_equal (fun l => nth_error l i)) in E.
  rewrite !nth_error_map in E.
  unfold current_mask_of, list_index.
  destruct (nth_error m i) as [row|], (nth_error m' i) as [row'|];
    cbn [option_map rbind] in *; try discriminate; [|reflexivity].
  injection E as E.
  destruct row as [|z row], row' as [|z' row'];
    cbn [option_map rbind nth_error] in *; try discriminate; [reflexivity|].
  injection E as E. now rewrite E.
Qed.

Lemma blend_objects_ext (mask mask' : mask_tensor F) (fh fw : nat)
    (range : list nat) :
  (forall i, current_mask_of mask i = current_mask_of mask' i) ->
  forall combined,
    blend_objects mask fh fw range combined
    = blend_objects mask' fh fw range combined.
Proof.
  intros E. induction range as [|i range IH]; intros combined; [reflexivity|].
  cbn [blend_objects]. rewrite E.
  destruct (current_mask_of mask' i) as [cm|]; cbn [rbind]; [|reflexivity].
  destruct (fit_to_frame cm fh fw) as [p|]; cbn [rbind]; [|reflexivity].
  destruct (colored_mask_of i p fh fw) as [c|]; cbn [rbind]; [|reflexivity].
  apply IH.
Qed.

(** X17.  Given a 2-D mask, which is what [process_frame] passes,
    [_process_mask] reads only its first column and only the sign of each
    entry there: row [i] is taken for object [i], and [mask[i, 0]] is a
    single number.  Two masks that agree on which first-column entries are
    positive give the same result. *)
Theorem process_mask_2d_first_column (m m' : plane Z)
    (frame_shape : nat * nat * nat) :
  first_column_signs m = first_column_signs m' ->
  _process_mask (Mask2D m) frame_shape = _process_mask (Mask2D m') frame_shape.
Proof.
  intros E. destruct frame_shape as [[fh fw] fc].
  assert (Hlen : length m = length m').
  { apply (f_equal (@length _)) in E. unfold first_column_signs in E.
    now rewrite !length_map in E. }
  unfold _process_mask. cbn [mask_len]. rewrite Hlen.
  destruct (length m' =? 0); [reflexivity|].
  rewrite (blend_objects_ext (Mask2D m) (Mask2D m') fh fw (seq 0 (length m'))
             (fun i => @current_mask_of_2d m m' i E)).
  reflexivity.
Qed.

(** *** The initialising frame when the network does not raise *)

(** When initialisation gets past [load_first_frame] and then raises, in
    seeding or in rendering the first frame, the execution ends there: the
    calls are [to], [load_first_frame] and those of the seeding, and the
    node is left initialised. *)
Lemma first_frame_stops (a : inputs F) (frame : image F)
    (rest : list (image F)) (s : store M) :
  if_init (self s) = false -> to_never_raises -> load_never_raises ->
  exists hp,
    let r := effective_predictor a s in
    let q := seeding a r (Store (Node (Some r) true) hp) in
    forall e,
      (value q = Raise e \/
       exists out, value q = Ok out /\ render a frame out = Raise e) ->
      segment_images a (frame :: rest) s
      = Outcome (post q)
          (CallTo (sm_model (sam2_model a)) "cuda"
           :: CallLoadFirstFrame r frame :: emitted q)
          (Raise e).
Proof.
  intros Hi Hto Hload.
  set (model := sm_model (sam2_model a)).
  set (hp1 := fun r' : ref =>
                if r' =? model then fst (to_device (heap s model) "cuda")
                else heap s r').
  pose proof (adopt_predictor_self a s hp1) as Hs2. fold model in Hs2.
  set (s2 := adopt_predictor model (Store (self s) hp1)) in *.
  set (r := effective_predictor a s) in *.
  assert (Hi2 : if_init (self s2) = false) by now rewrite Hs2.
  assert (Hp2 : predictor (self s2) = Some r) by now rewrite Hs2.
  set (hp2 := fun r' : ref =>
                if r' =? r then fst (load_first_frame (heap s2 r) frame)
                else heap s2 r').
  exists hp2. cbn zeta. intros e He.
  unfold segment_images. fold model.
  unfold bind at 1. rewrite invoke_run, Hto. fold hp1.
  unfold bind at 1. unfold modify at 1. fold s2.
  unfold bind at 1. cbn [process_frames].
  unfold bind at 1. unfold process_frame at 1.
  unfold bind at 1. rewrite (obtain_logits_uninit a frame s2 Hi2 Hp2).
  unfold bind at 1. rewrite invoke_run, Hload. fold hp2.
  unfold bind at 1. unfold modify at 1. unfold set_if_init at 1.
  cbn [self heap]. rewrite Hp2.
  destruct (seeding a r (Store (Node (Some r) true) hp2)) as [p ev [out|ex]];
    cbn [post emitted value app] in *.
  - destruct He as [He | (out' & [= <-] & Hr)]; [discriminate|].
    unfold lift. rewrite Hr. unfold bind, ret.
    cbn [post emitted value app]. rewrite ?app_nil_r. reflexivity.
  - destruct He as [[= <-] | (out' & Hq & _)]; [|discriminate].
    reflexivity.
Qed.

(** X9.  A failed initialisation is not retried.  If the coordinate
    input does not parse (the default [None] does not), the first frame
    raises after [load_first_frame], with [if_init] already set: no prompt
    was seeded, and every later execution only tracks. *)
Theorem unparsable_coordinates_still_initialise (a : inputs F)
    (frame : image F) (rest : list (image F)) (s : store M) (e : exn) :
  if_init (self s) = false -> to_never_raises -> load_never_raises ->
  ast_literal_eval (coordinates_positive a) = Raise e ->
  let o := segment_images a (frame :: rest) s in
  let r := effective_predictor a s in
  value o = Raise e /\
  self (post o) = Node (Some r) true /\
  emitted o = [ CallTo (sm_model (sam2_model a)) "cuda";
                CallLoadFirstFrame r frame;
                CallLiteralEval (coordinates_positive a) ] /\
  forall later, forallb (is_tracking r) (snd (run_calls later (post o))) = true.
Proof.
  intros Hi Hto Hload Hparse. cbn zeta.
  destruct (first_frame_stops a frame rest s Hi Hto Hload) as (hp & Hstop).
  cbn zeta in Hstop. specialize (Hstop e).
  assert (Hq : seeding a (effective_predictor a s)
                 (Store (Node (Some (effective_predictor a s)) true) hp)
               = Outcome (Store (Node (Some (effective_predictor a s)) true) hp)
                   [CallLiteralEval (coordinates_positive a)] (Raise e)).
  { unfold seeding, bind, emit, lift. now rewrite Hparse. }
  rewrite Hq in Hstop. cbn [post emitted value] in Hstop.
  rewrite (Hstop (or_introl eq_refl)). cbn [post emitted value self].
  repeat split. intros later.
  now apply run_calls_initialized.
Qed.

(** X10.  An empty coordinate list seeds nothing and leaves
    [out_mask_logits] unbound: the first frame raises UnboundLocalError
    after both inputs were parsed, and the node is left initialised. *)
Theorem empty_coordinate_list_raises (a : inputs F) (frame : image F)
    (rest : list (image F)) (s : store M) (cv : pyval F) (labels : list Z) :
  if_init (self s) = false -> to_never_raises -> load_never_raises ->
  ast_literal_eval (coordinates_positive a) = Ok cv ->
  py_iter cv = Ok [] ->
  parsed_labels a = Ok labels ->
  let o := segment_images a (frame :: rest) s in
  let r := effective_predictor a s in
  value o = Raise UnboundLocalError /\
  self (post o) = Node (Some r) true /\
  emitted o = [ CallTo (sm_model (sam2_model a)) "cuda";
                CallLoadFirstFrame r frame;
                CallLiteralEval (coordinates_positive a);
                CallLiteralEval (point_labels a) ].
Proof.
  intros Hi Hto Hload Hcv Hpts Hlab. cbn zeta.
  destruct (first_frame_stops a frame rest s Hi Hto Hload) as (hp & Hstop).
  cbn zeta in Hstop. specialize (Hstop UnboundLocalError).
  unfold parsed_labels in Hlab.
  destruct (ast_literal_eval (point_labels a)) as [lv|] eqn:Hlv;
    cbn [rbind] in Hlab; [|discriminate].
  assert (Hq : seeding a (effective_predictor a s)
                 (Store (Node (Some (effective_predictor a s)) true) hp)
               = Outcome (Store (Node (Some (effective_predictor a s)) true) hp)
                   [CallLiteralEval (coordinates_positive a);
                    CallLiteralEval (point_labels a)] (Ok None)).
  { unfold seeding, bind, emit, lift. rewrite Hcv, Hlv, Hlab, Hpts.
    reflexivity. }
  rewrite Hq in Hstop. cbn [post emitted value] in Hstop.
  rewrite Hstop; [cbn [post emitted value self]; auto|].
  right. exists None. split; reflexivity.
Qed.

(** With fewer labels than coordinates the seeding loop prompts once per
    label and then fails on the missing one. *)
Lemma seed_prompts_runs_out (r : ref) (labels : list Z)
    (points : list (pyval F)) :
  prompt_never_raises ->
  Forall (fun p => exists pt, int_seq p = Ok pt) points ->
  forall (idx : nat) (out : option (logits F)) (s : store M),
  idx <= length labels -> length labels < idx + length points ->
  let o := seed_prompts r labels idx points out s in
  value o = Raise IndexError /\
  self (post o) = self s /\
  length (emitted o) = length labels - idx /\
  filter is_prompt (emitted o) = emitted o.
Proof.
  intros Hnr Hconv.
  induction Hconv as [|p points [pt Hpt] _ IH]; intros idx out s Hle Hlt.
  - cbn in Hlt. lia.
  - cbn zeta. cbn [seed_prompts]. unfold bind, lift.
    rewrite Hpt. unfold list_index.
    destruct (nth_error labels idx) as [l|] eqn:Hl.
    + assert (Hidx : idx < length labels)
        by (apply nth_error_Some; congruence).
      rewrite invoke_run.
      destruct (Hnr (heap s r) 0 (idx + 1) [pt] [l]) as (lg & ->).
      cbn [length] in Hlt.
      match goal with
      | |- context [seed_prompts r labels (S idx) points (Some lg) ?s'] =>
          destruct (IH (S idx) (Some lg) s') as (Hv & Hs & Hn & Hf);
            [lia | lia |];
          destruct (seed_prompts r labels (S idx) points (Some lg) s')
            as [p' e' v']
      end.
      cbn [post emitted value app self length filter is_prompt] in *.
      rewrite Hf. repeat split; auto; try reflexivity. lia.
    + apply nth_error_None in Hl.
      cbn [post emitted value length filter app]. repeat split; try reflexivity.
      cbn [length]. lia.
Qed.

(** X18.  Fewer labels than coordinates: when every coordinate converts
    and the network does not raise, exactly one prompt per label is issued
    and the first frame then raises IndexError on the missing label; the
    node is left initialised with that partial seeding. *)
Theorem missing_labels_raise (a : inputs F) (frame : image F)
    (rest : list (image F)) (s : store M)
    (points : list (pyval F)) (labels : list Z) :
  if_init (self s) = false ->
  to_never_raises -> load_never_raises -> prompt_never_raises ->
  parsed_points a = Ok points ->
  parsed_labels a = Ok labels ->
  Forall (fun p => exists pt, int_seq p = Ok pt) points ->
  length labels < length points ->
  let o := segment_images a (frame :: rest) s in
  value o = Raise IndexError /\
  length (filter is_prompt (emitted o)) = length labels /\
  if_init (self (post o)) = true.
Proof.
  intros Hi Hto Hload Hnr Hpts Hlab Hconv Hlt. cbn zeta.
  destruct (first_frame_stops a frame rest s Hi Hto Hload) as (hp & Hstop).
  cbn zeta in Hstop. specialize (Hstop IndexError).
  unfold parsed_points in Hpts. unfold parsed_labels in Hlab.
  destruct (ast_literal_eval (coordinates_positive a)) as [cv|] eqn:Hcv;
    cbn [rbind] in Hpts; [|discriminate].
  destruct (ast_literal_eval (point_labels a)) as [lv|] eqn:Hlv;
    cbn [rbind] in Hlab; [|discriminate].
  set (r := effective_predictor a s) in *.
  set (s1 := Store (Node (Some r) true) hp) in *.
  destruct (@seed_prompts_runs_out r labels points Hnr Hconv 0 None s1)
    as (Hv & Hs & Hn & Hf); [lia | lia |].
  assert (Hq : seeding a r s1
               = Outcome (post (seed_prompts r labels 0 points None s1))
                   (CallLiteralEval (coordinates_positive a)
                    :: CallLiteralEval (point_labels a)
                    :: emitted (seed_prompts r labels 0 points None s1))
                   (Raise IndexError)).
  { unfold seeding, bind, emit, lift. rewrite Hcv, Hlv, Hlab, Hpts.
    destruct (seed_prompts r labels 0 points None s1) as [p' e' v'].
    cbn [post emitted value app] in *. now rewrite Hv. }
  rewrite Hq in Hstop. cbn [post emitted value] in Hstop.
  rewrite (Hstop (or_introl eq_refl)). cbn [post emitted value].
  cbn [filter is_prompt]. rewrite Hf, Hn, Hs, Nat.sub_0_r. auto.
Qed.

(** *** Which networks an execution touches *)

Lemma seed_prompts_heap (r r' : ref) (labels : list Z)
    (points : list (pyval F)) :
  r' <> r ->
  forall (idx : nat) (out : option (logits F)) (s : store M),
    heap (post (seed_prompts r labels idx points out s)) r' = heap s r'.
Proof.
  intros Hr. apply Nat.eqb_neq in Hr.
  induction points as [|p points IH]; intros idx out s; [reflexivity|].
  cbn [seed_prompts]. unfold bind, lift.
  destruct (int_seq p) as [pt|]; [|reflexivity].
  destruct (list_index labels idx) as [l|]; [|reflexivity].
  rewrite invoke_run.
  destruct (snd (add_new_prompt (heap s r) 0 (idx + 1) [pt] [l])) as [lg|];
    [|cbn [post heap]; now rewrite Hr].
  match goal with
  | |- context [seed_prompts r labels (S idx) points (Some lg) ?s'] =>
      specialize (IH (S idx) (Some lg) s');
        destruct (seed_prompts r labels (S idx) points (Some lg) s')
  end.
  cbn [post heap] in *. now rewrite IH, Hr.
Qed.

Lemma seeding_heap (a : inputs F) (r r' : ref) (s : store M) :
  r' <> r -> heap (post (seeding a r s)) r' = heap s r'.
Proof.
  intros Hr. unfold seeding, bind, emit, lift.
  destruct (ast_literal_eval (coordinates_positive a)) as [cv|];
    [|reflexivity].
  destruct (ast_literal_eval (point_labels a)) as [lv|]; [|reflexivity].
  destruct (int_seq lv) as [labels|]; [|reflexivity].
  destruct (py_iter cv) as [points|]; [|reflexivity].
  pose proof (seed_prompts_heap labels points Hr 0 None s) as Hh.
  destruct (seed_prompts r labels 0 points None s). exact Hh.
Qed.

Lemma obtain_logits_heap (a : inputs F) (frame : image F) (s : store M)
    (r r' : ref) :
  predictor (self s) = Some r -> r' <> r ->
  heap (post (obtain_logits a frame s)) r' = heap s r' /\
  predictor (self (post (obtain_logits a frame s))) = Some r.
Proof.
  intros Hp Hr. split.
  - assert (Hb : (r' =? r) = false) by now apply Nat.eqb_neq.
    destruct (if_init (self s)) eqn:Hi.
    + unfold obtain_logits.
      rewrite (@bind_pure _ _ _ _ get _ s s) by reflexivity.
      rewrite Hi. cbn [negb].
      rewrite (@bind_pure _ _ _ _ the_predictor _ s r)
        by (unfold the_predictor; now rewrite Hp).
      unfold bind, ret. rewrite invoke_run.
      destruct (snd (track (heap s r) frame)); cbn [post heap];
        now rewrite Hb.
    + rewrite (obtain_logits_uninit a frame s Hi Hp).
      unfold bind, modify. rewrite invoke_run.
      destruct (snd (load_first_frame (heap s r) frame));
        [|cbn [post heap]; now rewrite Hb].
      match goal with
      | |- context [seeding a r ?s'] =>
          pose proof (@seeding_heap a r r' s' Hr) as Hh;
            destruct (seeding a r s')
      end.
      cbn [post heap set_if_init] in *. now rewrite Hh, Hb.
  - destruct (if_init (self s)) eqn:Hi.
    + destruct (obtain_logits_tracking a frame s Hi Hp) as [_ ->]. exact Hp.
    + destruct (obtain_logits_first a frame s Hi Hp)
        as [(_ & -> & _) | (-> & _)]; [exact Hp|reflexivity].
Qed.

Lemma process_frames_heap (a : inputs F) (r r' : ref)
    (images : list (image F)) :
  r' <> r ->
  forall (idx : nat) (acc : buffers F) (s : store M),
  predictor (self s) = Some r ->
  heap (post (process_frames a images idx acc s)) r' = heap s r'.
Proof.
  intros Hr. induction images as [|img rest IH]; intros idx acc s Hp;
    [reflexivity|].
  cbn [process_frames]. unfold bind.
  destruct (process_frame_calls a img idx acc s) as (_ & Hpost & _).
  destruct (obtain_logits_heap a img s Hp Hr) as (Hh & Hp').
  rewrite <- Hpost in Hh, Hp'.
  destruct (process_frame a img idx acc s) as [p e [acc'|ex]];
    cbn [post] in *; [|exact Hh].
  specialize (IH (S idx) acc' p Hp').
  destruct (process_frames a rest (S idx) acc' p). cbn [post] in *.
  congruence.
Qed.

(** X12.  An execution changes the state of at most two networks: the
    one it was given (moved to the device) and the predictor it works with.
    Every other network object is left as it was, on every path. *)
Theorem other_networks_untouched (a : inputs F) (images : list (image F))
    (s : store M) (r' : ref) :
  r' <> sm_model (sam2_model a) ->
  r' <> effective_predictor a s ->
  heap (post (segment_images a images s)) r' = heap s r'.
Proof.
  intros Hm Hr.
  assert (Hb : (r' =? sm_model (sam2_model a)) = false) by now apply Nat.eqb_neq.
  unfold segment_images, bind, modify, lift, ret. rewrite invoke_run.
  destruct (snd (to_device (heap s (sm_model (sam2_model a))) "cuda"));
    [|cbn [post heap]; now rewrite Hb].
  match goal with
  | |- context [process_frames a images 0 ([], []) ?s2] =>
      assert (Hp2 : predictor (self s2) = Some (effective_predictor a s))
        by (rewrite adopt_predictor_self; reflexivity);
        assert (Hh2 : heap s2 r' = heap s r')
          by (unfold adopt_predictor; cbn [self];
              destruct (predictor (self s)); cbn [heap]; now rewrite Hb);
        pose proof (process_frames_heap a images Hr 0 ([], []) s2 Hp2) as Hh;
        destruct (process_frames a images 0 ([], []) s2) as [p e [lists|ex]]
  end; cbn [post] in *; [|congruence].
  destruct (torch_stack (snd lists)); [|cbn [post]; congruence].
  destruct (torch_stack (fst lists)); cbn [post]; congruence.
Qed.

(** *** Pixels no object covers *)

Lemma fold_transparent (ks : list (list Z)) :
  transparent_keeps_zero ->
  Forall (fun k => k = [0; 0; 0; 0]%Z) ks ->
  fold_left blend_pixel ks (repeat (of_Z 0) 4) = repeat (of_Z 0) 4.
Proof.
  intros Hz Hks. induction Hks as [|k ks -> _ IH]; [reflexivity|].
  cbn [fold_left]. rewrite <- IH at 2. f_equal.
  unfold blend_pixel. cbn [nth repeat zip_with].
  unfold transparent_keeps_zero in Hz. now rewrite !Hz.
Qed.

(** X14.  A pixel that no object's mask covers comes out black: for a
    mask of at least one object, wherever every object's fitted mask is not
    positive, the colourised image is [0, 0, 0]. *)
Theorem process_mask_background `{!FloatLaws F} (m : logits F)
    (fh fw fc y x : nat) :
  transparent_keeps_zero ->
  0 < length m ->
  (forall i, i < length m ->
     exists p, object_mask m fh fw i = Ok p /\ shape2 p = (fh, fw)) ->
  y < fh -> x < fw ->
  (forall i, i < length m -> (object_value m fh fw i y x <= 0)%Z) ->
  exists img,
    _process_mask (Mask4D m) (fh, fw, fc) = Ok (Color img) /\
    nth x (nth y img []) [] = [0; 0; 0]%Z.
Proof.
  intros Hz Hn Hobj Hy Hx Hbg.
  destruct (@blend_objects_pixels _ _ _ m fh fw (seq 0 (length m))
              (build fh fw (fun _ _ => repeat (of_Z 0) 4)))
    as (res & Hres & Hrect & Hpix).
  { apply build_rect. }
  { intros i Hi. apply in_seq in Hi. apply Hobj. lia. }
  exists (to_bgr res). split.
  - unfold _process_mask. cbn [mask_len].
    destruct (length m =? 0) eqn:E; [apply Nat.eqb_eq in E; lia|].
    now rewrite Hres.
  - unfold to_bgr.
    change (@nil (list Z))
      with (map (fun px : list F => map to_byte (firstn 3 px)) []) at 1.
    rewrite map_nth.
    change (@nil Z) with ((fun px : list F => map to_byte (firstn 3 px)) []).
    rewrite map_nth. rewrite (Hpix y x Hy Hx).
    rewrite build_nth by assumption.
    rewrite fold_transparent; [| exact Hz |].
    + cbn [repeat firstn map]. now rewrite !to_byte_of_Z by lia.
    + apply Forall_forall. intros k Hk.
      apply in_map_iff in Hk as (i & <- & Hi). apply in_seq in Hi.
      unfold colored_pixel.
      destruct (0 <? object_value m fh fw i y x)%Z eqn:E; [|reflexivity].
      apply Z.ltb_lt in E. specialize (Hbg i). lia.
Qed.
End SegmentationMore.

(** ** The statements at work on the concrete host *)

#[local] Existing Instance q_float.
#[local] Existing Instance table_runtime.
#[local] Existing Instance simple_lib.
#[local] Existing Instance counting_model.
#[local] Existing Instance demo_host.

Lemma q_laws : FloatLaws Q.
Proof.
  split.
  - intros b Hb. change (Qfloor (inject_Z b) mod 256 = b)%Z.
    rewrite Qfloor_Z. now apply Z.mod_small.
  - intros x. change (0 <= Qfloor x mod 256 < 256)%Z.
    apply Z.mod_pos_bound. lia.
Qed.

#[local] Existing Instance q_laws.

Lemma counting_to_never_raises : to_never_raises (M:=nat).
Proof. intros m d. reflexivity. Qed.

Lemma counting_load_never_raises : load_never_raises (F:=Q) (M:=nat).
Proof. intros m f. reflexivity. Qed.

Lemma counting_prompt_never_raises : prompt_never_raises (F:=Q) (M:=nat).
Proof. intros m i o pts ls. eexists. reflexivity. Qed.

(** Two frames on a fresh node: load, parse twice, two prompts; the
    frame then fails to render and the second frame is not reached.  On an
    initialised node the first frame is tracked at once. *)
Lemma segment_images_state_machine_witness :
  (exists evs,
     emitted (segment_images seeded_inputs [demo_frame; demo_frame] fresh_store)
     = CallTo 7 "cuda" :: evs /\
     length evs = 5) /\
  (exists evs,
     emitted (segment_images bare_inputs [demo_frame; demo_frame]
                (Store (Node (Some 7) true) (fun _ => 0)))
     = CallTo 7 "cuda" :: evs /\
     evs = [CallTrack 7 demo_frame]).
Proof.
  split.
  - destruct (segment_images_state_machine seeded_inputs
                [demo_frame; demo_frame] fresh_store) as (evs & E & _).
    exists evs. split; [exact E|].
    vm_compute in E. injection E as <-. reflexivity.
  - destruct (segment_images_state_machine bare_inputs
                [demo_frame; demo_frame]
                (Store (Node (Some 7) true) (fun _ => 0))) as (evs & E & _).
    exists evs. split; [exact E|].
    vm_compute in E. injection E as <-. reflexivity.
Defined.




(** The claim as written fails on a mask of zero objects: the result is a
    2-D array, not a 3-channel image. *)
Lemma process_mask_zero_objects_is_gray :
  _process_mask (F:=Q) (Mask4D []) (2, 2, 3) = Ok (Gray [[0; 0]; [0; 0]]%Z) /\
  forall img, _process_mask (F:=Q) (Mask4D []) (2, 2, 3) <> Ok (Color img).
Proof.
  split; [reflexivity|]. intros img. vm_compute. discriminate.
Qed.

(** Nor does it hold when an object has no channel: [mask[0, 0]] is an
    IndexError. *)
Lemma process_mask_channelless_raises :
  _process_mask (Mask4D channelless_mask) (2, 2, 3) = Raise IndexError.
Proof. reflexivity. Qed.

(** Six objects.  The left pixel is covered by objects 0 and 1: purple
    is laid down first and yellow blended over it.  The right pixel is
    covered by object 5, which is purple again. *)
Lemma process_mask_objects_witness :
  0 < length six_objects /\
  exists img,
    _process_mask (Mask4D six_objects) (1, 2, 3) = Ok (Color img) /\
    rect 1 2 img /\
    img = [[[63; 128; 191]; [128; 0; 128]]]%Z.
Proof.
  assert (Hn : 0 < length six_objects) by (cbn; lia).
  split; [exact Hn|].
  assert (Hobj : forall i, i < length six_objects ->
            exists p, object_mask six_objects 1 2 i = Ok p /\ shape2 p = (1, 2)).
  { intros i Hi. cbn in Hi.
    do 6 (destruct i as [|i];
          [eexists; split; vm_compute; reflexivity|]).
    lia. }
  destruct (process_mask_objects six_objects 1 2 3) as (_ & _ & _ & _ & Himg).
  destruct (Himg Hn Hobj) as (img & E & Hr & _).
  exists img. split; [exact E|]. split; [exact Hr|].
  vm_compute in E. now injection E as <-.
Defined.

(** The overlay itself, on any image, and the frame it belongs to. *)
Lemma show_point_raises_witness :
  show_point overlay_inputs = true /\
  coordinates_positive overlay_inputs = Some "[[1, 1]]"%string /\
  overlay_points overlay_inputs (Gray [[0; 0]; [0; 0]]%Z) = Raise CvError /\
  succeeded (render overlay_inputs demo_frame (Some demo_logits)) = false.
Proof.
  split; [reflexivity|]. split; [reflexivity|].
  destruct (show_point_raises overlay_inputs eq_refl eq_refl) as (Hov & Hr).
  split; [apply Hov | apply Hr].
Defined.

(** With these libraries the run on two frames stops in the first one,
    at [cv2.resize]. *)
Lemma segment_images_never_returns_witness :
  (forall (z : Z) (w h : nat), succeeded (cv2_resize (Scalar z) w h) = false) /\
  (forall (t : image Q) (n : ndarray Q), succeeded (torch_add_np t n) = false) /\
  succeeded (value (segment_images seeded_inputs [demo_frame; demo_frame]
                      fresh_store)) = false /\
  value (segment_images seeded_inputs [demo_frame; demo_frame] fresh_store)
  = Raise CvError /\
  _process_mask (F:=Q) (Mask2D [[1; 1; 0]; [1; 1; 0]; [0; 0; 1]]%Z) (3, 3, 3)
  = Raise CvError.
Proof.
  assert (Hresize : forall (z : Z) (w h : nat),
            succeeded (cv2_resize (Scalar z) w h) = false)
    by (intros; reflexivity).
  assert (Hadd : forall (t : image Q) (n : ndarray Q),
            succeeded (torch_add_np t n) = false)
    by (intros; reflexivity).
  split; [exact Hresize|]. split; [exact Hadd|].
  destruct (segment_images_never_returns seeded_inputs
              [demo_frame; demo_frame] fresh_store Hresize Hadd)
    as (_ & _ & _ & _ & Hnever).
  split; [exact Hnever|]. split; reflexivity.
Defined.

Lemma loadmodel_cpu_needs_fp32_witness :
  "cpu"%string = "cpu"%string /\ "fp16"%string <> "fp32"%string /\
  loadmodel "sam2_hiera_tiny.pt" "realtime" "cpu" "fp16" empty_world
  = Outcome empty_world [] (Raise ValueError).
Proof.
  assert (Hp : "fp16"%string <> "fp32"%string) by discriminate.
  split; [reflexivity|]. split; [exact Hp|].
  exact (loadmodel_cpu_needs_fp32 "sam2_hiera_tiny.pt" "realtime"
           empty_world eq_refl Hp).
Defined.

(** One initialising execution, then two more with no coordinates at all:
    the later ones only track. *)
Lemma predictor_persists_witness :
  if_init (self (fst (run_calls [(seeded_inputs, [demo_frame])] fresh_store)))
  = true /\
  exists r,
    predictor (self (fst (run_calls [(seeded_inputs, [demo_frame])] fresh_store)))
    = Some r /\
    forallb (is_tracking r)
      (snd (run_calls [(bare_inputs, [demo_frame; demo_frame]);
                       (bare_inputs, [demo_frame])]
              (fst (run_calls [(seeded_inputs, [demo_frame])] fresh_store))))
    = true.
Proof.
  assert (Hi : if_init (self (fst (run_calls [(seeded_inputs, [demo_frame])]
                                    (Store __init__ (fun _ => 0))))) = true)
    by reflexivity.
  split; [exact Hi|].
  destruct (predictor_persists (fun _ => 0) [(seeded_inputs, [demo_frame])]
              [(bare_inputs, [demo_frame; demo_frame]);
               (bare_inputs, [demo_frame])] Hi) as (r & Hr & _ & Hcalls).
  exists r. split; assumption.
Defined.

(** ** More statements at work: the loader *)

(** Asked for "mps", the network is reported on "cuda". *)
Lemma loadmodel_returns_witness :
  exists d,
    value (loadmodel "sam2_hiera_tiny.pt" "realtime" "mps" "fp32" empty_world)
    = Ok d /\
    d_device d = "cuda"%string.
Proof.
  destruct (value (loadmodel "sam2_hiera_tiny.pt" "realtime" "mps" "fp32"
                     empty_world)) as [d|e] eqn:E.
  - exists d. split; [reflexivity|].
    exact (proj1 (loadmodel_returns _ _ _ _ _ E)).
  - vm_compute in E. discriminate.
Defined.

Lemma loadmodel_unknown_device_witness :
  "tpu"%string <> "cuda"%string /\
  loadmodel "sam2_hiera_tiny.pt" "realtime" "tpu" "fp16" empty_world
  = Outcome empty_world [] (Raise KeyError).
Proof.
  assert (H1 : "tpu"%string <> "cuda"%string) by discriminate.
  assert (H2 : "tpu"%string <> "cpu"%string) by discriminate.
  assert (H3 : "tpu"%string <> "mps"%string) by discriminate.
  split; [exact H1|].
  exact (loadmodel_unknown_device "sam2_hiera_tiny.pt" "realtime" "fp16"
           empty_world H1 H2 H3).
Defined.

Lemma loadmodel_download_only_if_absent_witness :
  path_exists stocked_world (model_path_of "sam2_hiera_tiny.pt") = true /\
  files (post (loadmodel "sam2_hiera_tiny.pt" "realtime" "cuda" "fp16"
                 stocked_world))
  = files stocked_world.
Proof.
  assert (Hp : path_exists stocked_world (model_path_of "sam2_hiera_tiny.pt")
               = true) by reflexivity.
  split; [exact Hp|].
  exact (proj2 (loadmodel_download_only_if_absent "sam2_hiera_tiny.pt"
                  "realtime" "cuda" "fp16" stocked_world) Hp).
Defined.

(** A first load on an empty disk downloads; a second one does not. *)
Lemma loadmodel_second_run_reuses_file_witness :
  existsb is_download
    (emitted (loadmodel "sam2_hiera_tiny.pt" "realtime" "cuda" "fp16"
                empty_world)) = true /\
  forallb (fun e => negb (is_download e))
    (emitted (loadmodel "sam2_hiera_tiny.pt" "realtime" "mps" "fp32"
                (post (loadmodel "sam2_hiera_tiny.pt" "realtime" "cuda" "fp16"
                         empty_world)))) = true.
Proof.
  split; [reflexivity|].
  destruct (value (loadmodel "sam2_hiera_tiny.pt" "realtime" "cuda" "fp16"
                     empty_world)) as [d|e] eqn:E.
  - exact (proj2 (loadmodel_second_run_reuses_file _ _ _ _ _
                    "realtime" "mps" "fp32" E)).
  - vm_compute in E. discriminate.
Defined.

Lemma loadmodel_tf32_witness :
  allow_tf32_matmul
    (post (loadmodel "sam2_hiera_tiny.pt" "realtime" "mps" "fp16" empty_world))
  = false.
Proof.
  destruct (loadmodel_tf32 "sam2_hiera_tiny.pt" "realtime" "mps" "fp16"
              empty_world) as [[Hm _] | (Hd & _)].
  - exact Hm.
  - discriminate Hd.
Defined.

Lemma loadmodel_strict_checkpoint_witness :
  exists d net0 net1,
    value (loadmodel "sam2_hiera_tiny.pt" "realtime" "cuda" "fp16" empty_world)
    = Ok d /\
    net_to net0 (d_device d) = Ok net1 /\ d_model d = net_eval net1.
Proof.
  destruct (value (loadmodel "sam2_hiera_tiny.pt" "realtime" "cuda" "fp16"
                     empty_world)) as [d|e] eqn:E.
  - destruct (loadmodel_strict_checkpoint _ _ _ _ _ E)
      as (cfg & net & body & sd & net0 & net1 & _ & _ & _ & _ & Hto & Hm).
    exists d, net0, net1. auto.
  - vm_compute in E. discriminate.
Defined.

Lemma offered_inputs_pass_validation_witness :
  In "mps"%string (it_device INPUT_TYPES) /\
  In "bf16"%string (it_precision INPUT_TYPES) /\
  exists rest,
    emitted (loadmodel "sam2_hiera_tiny.pt" "realtime" "mps" "bf16" empty_world)
    = Stdout ["model_path: "%string; model_path_of "sam2_hiera_tiny.pt"]
      :: rest.
Proof.
  assert (Hd : In "mps"%string (it_device INPUT_TYPES)) by (cbn; auto).
  assert (Hp : In "bf16"%string (it_precision INPUT_TYPES)) by (cbn; auto).
  assert (Hcpu : "mps"%string = "cpu"%string -> "bf16"%string = "fp32"%string)
    by discriminate.
  assert (Hcuda : "mps"%string = "cuda"%string ->
                  exists major, cuda_device_major = Ok major) by discriminate.
  split; [exact Hd|]. split; [exact Hp|].
  exact (proj1 (@offered_inputs_pass_validation _ _ _ _
                  "sam2_hiera_tiny.pt"%string "realtime"%string
                  "mps"%string "bf16"%string empty_world Hd Hp Hcpu Hcuda)).
Defined.

(** The stream breaks after "wei": that is what stays on disk, and the
    next load reads it instead of fetching again. *)
Lemma loadmodel_broken_download_stays_witness :
  let o := loadmodel (H:=flaky_host) "sam2_hiera_tiny.pt" "realtime" "mps"
             "fp32" empty_world in
  let o' := loadmodel (H:=flaky_host) "sam2_hiera_tiny.pt" "realtime" "mps"
              "fp32" (post o) in
  value o = Raise OSError /\
  files (post o) = [("/models/sam2/sam2_hiera_tiny.pt", "wei")]%string /\
  forallb (fun e => negb (is_download e)) (emitted o') = true /\
  value o' = Raise RuntimeError.
Proof.
  cbn zeta.
  assert (Hd : In "mps"%string (it_device INPUT_TYPES)) by (cbn; auto).
  assert (Hp : In "fp32"%string (it_precision INPUT_TYPES)) by (cbn; auto).
  assert (Hcpu : "mps"%string = "cpu"%string -> "fp32"%string = "fp32"%string)
    by reflexivity.
  assert (Hcuda : "mps"%string = "cuda"%string ->
                  exists major, cuda_device_major (Host:=flaky_host) = Ok major)
    by discriminate.
  assert (Habsent : path_exists empty_world
                      (model_path_of (H:=flaky_host) "sam2_hiera_tiny.pt")
                    = false) by reflexivity.
  assert (Hget : http_get (Host:=flaky_host) url
                 = Ok (["wei"%string], Some OSError)) by reflexivity.
  assert (Hopen : open_wb (Host:=flaky_host)
                    (model_path_of (H:=flaky_host) "sam2_hiera_tiny.pt")
                  = Ok tt) by reflexivity.
  destruct (@loadmodel_broken_download_stays _ _ _ flaky_host
              "sam2_hiera_tiny.pt"%string "realtime"%string "mps"%string
              "fp32"%string empty_world _ _ Hd Hp Hcpu Hcuda Habsent Hget Hopen)
    as (Hv & _ & Hlater).
  split; [exact Hv|]. split; [reflexivity|].
  split; [|reflexivity].
  exact (proj2 (Hlater "realtime"%string "mps"%string "fp32"%string)).
Defined.

Lemma loadmodel_cannot_create_file_witness :
  let o := loadmodel (H:=readonly_host) "sam2_hiera_tiny.pt" "realtime" "cpu"
             "fp32" empty_world in
  value o = Raise OSError /\
  files (post o) = [] /\
  existsb is_download (emitted o) = true.
Proof.
  cbn zeta.
  assert (Hd : In "cpu"%string (it_device INPUT_TYPES)) by (cbn; auto).
  assert (Hp : In "fp32"%string (it_precision INPUT_TYPES)) by (cbn; auto).
  assert (Hcpu : "cpu"%string = "cpu"%string -> "fp32"%string = "fp32"%string)
    by reflexivity.
  assert (Hcuda : "cpu"%string = "cuda"%string ->
                  exists major,
                    cuda_device_major (Host:=readonly_host) = Ok major)
    by discriminate.
  assert (Habsent : path_exists empty_world
                      (model_path_of (H:=readonly_host) "sam2_hiera_tiny.pt")
                    = false) by reflexivity.
  assert (Hget : http_get (Host:=readonly_host) url
                 = Ok (["weights"%string], None)) by reflexivity.
  assert (Hopen : open_wb (Host:=readonly_host)
                    (model_path_of (H:=readonly_host) "sam2_hiera_tiny.pt")
                  = Raise OSError) by reflexivity.
  exact (@loadmodel_cannot_create_file _ _ _ readonly_host
           "sam2_hiera_tiny.pt"%string "realtime"%string "cpu"%string
           "fp32"%string empty_world _ _ Hd Hp Hcpu Hcuda Habsent Hget Hopen).
Defined.

(** ** More statements at work: the segmentation node *)

Lemma overlay_never_paints_witness :
  overlay_points bare_inputs (Gray [[0%Z]]) = Ok (Gray [[0%Z]]) /\
  (show_point bare_inputs = false \/
   coordinates_positive bare_inputs = Some ""%string).
Proof.
  assert (E : overlay_points bare_inputs (Gray [[0%Z]]) = Ok (Gray [[0%Z]]))
    by reflexivity.
  split; [exact E|].
  exact (proj2 (overlay_never_paints bare_inputs _ E)).
Defined.

(** With only the required inputs, a fresh node raises ValueError on
    its first frame and is initialised all the same. *)
Lemma unparsable_coordinates_still_initialise_witness :
  value (segment_images bare_inputs [demo_frame] fresh_store)
  = Raise ValueError /\
  self (post (segment_images bare_inputs [demo_frame] fresh_store))
  = Node (Some 7) true.
Proof.
  destruct (unparsable_coordinates_still_initialise bare_inputs demo_frame []
              fresh_store (e:=ValueError) eq_refl counting_to_never_raises
              counting_load_never_raises eq_refl) as (Hv & Hs & _).
  split; assumption.
Defined.

Lemma empty_coordinate_list_raises_witness :
  value (segment_images (H0:=wider_runtime) empty_list_inputs [demo_frame]
           fresh_store)
  = Raise UnboundLocalError.
Proof.
  exact (proj1 (empty_coordinate_list_raises (H0:=wider_runtime)
                  empty_list_inputs demo_frame [] fresh_store
                  (cv:=PyList []) (labels:=[1%Z])
                  eq_refl counting_to_never_raises counting_load_never_raises
                  eq_refl eq_refl eq_refl)).
Defined.

Lemma missing_labels_raise_witness :
  1 < 2 /\
  value (segment_images short_label_inputs [demo_frame] fresh_store)
  = Raise IndexError /\
  length (filter is_prompt
            (emitted (segment_images short_label_inputs [demo_frame]
                        fresh_store))) = 1.
Proof.
  assert (Hlt : 1 < 2) by lia.
  split; [exact Hlt|].
  assert (Hconv : Forall (fun p : pyval Q => exists pt, int_seq p = Ok pt)
                    [PyList [PyInt 1; PyInt 2]; PyList [PyInt 3; PyInt 4]]).
  { repeat constructor; eexists; reflexivity. }
  assert (Hp : parsed_points short_label_inputs
               = Ok [PyList [PyInt 1; PyInt 2]; PyList [PyInt 3; PyInt 4]])
    by reflexivity.
  assert (Hl : parsed_labels short_label_inputs = Ok [1%Z]) by reflexivity.
  assert (Hi : if_init (self fresh_store) = false) by reflexivity.
  destruct (missing_labels_raise short_label_inputs demo_frame []
              fresh_store Hi
              counting_to_never_raises counting_load_never_raises
              counting_prompt_never_raises Hp Hl Hconv Hlt)
    as (Hv & Hn & _).
  split; assumption.
Defined.

Lemma predictor_never_replaced_witness :
  predictor (self (post (segment_images seeded_inputs [demo_frame]
                           (Store (Node (Some 3) false) (fun _ => 0)))))
  = Some 3.
Proof.
  exact (proj1 (predictor_never_replaced seeded_inputs [demo_frame]
                  (Store (Node (Some 3) false) (fun _ => 0))) 3 eq_refl).
Defined.

Lemma other_networks_untouched_witness :
  5 <> 7 /\
  heap (post (segment_images seeded_inputs [demo_frame; demo_frame]
                fresh_store)) 5 = 0.
Proof.
  assert (Hne : 5 <> 7) by discriminate.
  split; [exact Hne|].
  exact (other_networks_untouched seeded_inputs [demo_frame; demo_frame]
           fresh_store (r':=5) Hne Hne).
Defined.

Lemma segment_images_empty_batch_witness :
  value (segment_images seeded_inputs [] fresh_store) = Raise RuntimeError /\
  predictor (self (post (segment_images seeded_inputs [] fresh_store)))
  = Some 7.
Proof.
  exact (proj2 (proj2 (proj2 (segment_images_empty_batch seeded_inputs
                                fresh_store))) eq_refl).
Defined.

Lemma palette_wraps_witness :
  (0 < 255)%Z /\ colored_pixel 1 255 = colored_pixel 6 255.
Proof.
  assert (Hv : (0 < 255)%Z) by lia.
  split; [exact Hv|].
  exact (proj2 (palette_wraps 1 6 Hv) eq_refl).
Defined.

Lemma only_first_object_rendered_witness :
  render bare_inputs demo_frame
    (Some ([ [[1; -1]; [0; 2]]; [[9; 9]; [9; 9]] ]%Q :: demo_logits))
  = render bare_inputs demo_frame (Some demo_logits).
Proof.
  exact (proj2 (only_first_object_rendered bare_inputs demo_frame
                  [[1; -1]; [0; 2]]%Q [ [[9; 9]; [9; 9]]%Q ] demo_logits)).
Defined.

Lemma process_mask_2d_first_column_witness :
  first_column_signs [[1; 0]; [0; 1]]%Z = first_column_signs [[5; 9]; [0; 0]]%Z /\
  _process_mask (F:=Q) (Mask2D [[1; 0]; [0; 1]]%Z) (2, 2, 3)
  = _process_mask (Mask2D [[5; 9]; [0; 0]]%Z) (2, 2, 3).
Proof.
  assert (E : first_column_signs [[1; 0]; [0; 1]]%Z
              = first_column_signs [[5; 9]; [0; 0]]%Z) by reflexivity.
  split; [exact E|].
  exact (process_mask_2d_first_column _ _ (2, 2, 3) E).
Defined.

Lemma qred_laws : @FloatLaws Q qred_float.
Proof.
  split.
  - intros b Hb. change (Qfloor (inject_Z b) mod 256 = b)%Z.
    rewrite Qfloor_Z. now apply Z.mod_small.
  - intros x. change (0 <= Qfloor x mod 256 < 256)%Z.
    apply Z.mod_pos_bound. lia.
Qed.

(** In [demo_logits] the entry at row 0, column 1 is negative: that pixel
    stays black. *)
Lemma process_mask_background_witness :
  exists img,
    _process_mask (H:=qred_float) (Mask4D demo_logits) (2, 2, 3)
    = Ok (Color img) /\
    nth 1 (nth 0 img []) [] = [0; 0; 0]%Z.
Proof.
  assert (Hz : transparent_keeps_zero (H:=qred_float)) by reflexivity.
  assert (Hn : 0 < length demo_logits) by (cbn; lia).
  assert (Hobj : forall i, i < length demo_logits ->
            exists p, object_mask (H:=qred_float) demo_logits 2 2 i = Ok p
                      /\ shape2 p = (2, 2)).
  { intros [|i] Hi; [|cbn in Hi; lia]. eexists. split; vm_compute; reflexivity. }
  assert (Hbg : forall i, i < length demo_logits ->
            (object_value (H:=qred_float) demo_logits 2 2 i 0 1 <= 0)%Z).
  { intros [|i] Hi; [|cbn in Hi; lia]. vm_compute. discriminate. }
  assert (Hy : 0 < 2) by lia. assert (Hx : 1 < 2) by lia.
  exact (@process_mask_background Q qred_float simple_lib qred_laws
           demo_logits 2 2 3 0 1 Hz Hn Hobj Hy Hx Hbg).
Defined.
